(** * YOLO depth detector node: a shallow embedding of
      [yolo_detection/yolo_depth_detector.py]

    The node caches the latest colour image, depth image and point cloud
    delivered by three subscriptions and, on a periodic timer, runs the
    detector, averages the depth over every bounding box and converts the
    four box corners to camera-frame 3D points.

    Floating-point values are IEEE 754 values ([spec_float]) with the
    standard library's executable operations; Python exceptions are an
    explicit [Raise] outcome; the node object and what it prints or calls
    are threaded through a small state-and-trace monad. *)

From Stdlib Require Import String ZArith List Bool Lia Permutation.
From Stdlib Require Import Floats.SpecFloat.
Import ListNotations.
Local Open Scope Z_scope.

(** ** IEEE 754 values as NumPy and Python use them *)

Module Float.

Definition float := spec_float.

Definition nan : float := S754_nan.
Definition inf : float := S754_infinity false.
Definition zero : float := S754_zero false.

(** Python floats are binary64, and so is the arithmetic of a float32
    scalar against a Python number under NumPy's value-based promotion;
    the cells of a [32FC1] depth image and the sums over them are
    binary32.  (Under NumPy's later promotion rules the scalar arithmetic
    runs in binary32 instead, which moves roundings only.) *)
Definition sub64 : float -> float -> float := SFsub 53 1024.
Definition mul64 : float -> float -> float := SFmul 53 1024.
Definition div64 : float -> float -> float := SFdiv 53 1024.
Definition add32 : float -> float -> float := SFadd 24 128.

(** [float(n)] for a Python integer. *)
Definition of_int (n : Z) : float := binary_normalize 53 1024 n 0 false.

(** Conversion between the two formats: promotion of a float32 scalar
    (exact) and [np.float32(x)] (rounding to nearest even). *)
Definition convert (prec emax : Z) (x : float) : float :=
  match x with
  | S754_finite s m e => binary_normalize prec emax (cond_Zopp s (Zpos m)) e s
  | _ => x
  end.
Definition to_float64 : float -> float := convert 53 1024.
Definition to_float32 : float -> float := convert 24 128.

(** The float32 nearest to [n / d], for writing depth cells down. *)
Definition f32 (n d : Z) : float :=
  SFdiv 24 128 (binary_normalize 24 128 n 0 false)
               (binary_normalize 24 128 d 0 false).

Definition isnan (x : float) : bool :=
  match x with S754_nan => true | _ => false end.

Definition isfinite (x : float) : bool :=
  match x with
  | S754_zero _ | S754_finite _ _ _ => true
  | S754_infinity _ | S754_nan => false
  end.

(** The finite values above zero. *)
Definition is_positive_finite (x : float) : bool :=
  match x with
  | S754_finite false _ _ => true
  | _ => false
  end.

(** [x <= 0] and [x == y], false whenever an operand is NaN. *)
Definition le0 (x : float) : bool := SFleb x zero.
Definition eqf (x y : float) : bool := SFeqb x y.

(** The integer part of a finite value, towards zero. *)
Definition trunc (s : bool) (m : positive) (e : Z) : Z :=
  cond_Zopp s
    (match e with
     | Zneg p => Z.shiftr (Zpos m) (Zpos p)
     | _ => Z.shiftl (Zpos m) e
     end).

End Float.
Import Float.

(** ** Exceptions and outcomes *)

Inductive exn : Type :=
| TypeError
| IndexError
| ValueError
| OverflowError
| CvBridgeError
| OtherException.

(** [except CvBridgeError] and [except Exception]. *)
Definition is_CvBridgeError (e : exn) : bool :=
  match e with CvBridgeError => true | _ => false end.
Definition is_Exception (e : exn) : bool := true.

Inductive result (A : Type) : Type :=
| Ok (a : A)
| Raise (e : exn).
Arguments Ok {A} a.
Arguments Raise {A} e.

(** [int(x)] on a Python float. *)
Definition py_int (x : float) : result Z :=
  match x with
  | S754_nan => Raise ValueError
  | S754_infinity _ => Raise OverflowError
  | S754_zero _ => Ok 0
  | S754_finite s m e => Ok (trunc s m e)
  end.

(** ** Two-dimensional arrays *)

Module Ndarray.

(** Row-major, one inner list per row. *)
Definition ndarray := list (list float).

Definition height (a : ndarray) : Z := Z.of_nat (length a).
Definition width (a : ndarray) : Z :=
  match a with
  | [] => 0
  | row :: _ => Z.of_nat (length row)
  end.

Definition cell (a : ndarray) (r c : nat) : float :=
  nth c (nth r a []) nan.

(** An integer index along an axis of length [n]: negative indices count
    from the end, anything outside [-n, n) is an [IndexError]. *)
Definition wrap (n i : Z) : Z := if i <? 0 then i + n else i.

Definition check_index (n i : Z) : result nat :=
  if (- n <=? i) && (i <? n) then Ok (Z.to_nat (wrap n i))
  else Raise IndexError.

(** [a[v, u]] *)
Definition getitem (a : ndarray) (v u : Z) : result float :=
  match check_index (height a) v with
  | Raise e => Raise e
  | Ok r =>
      match check_index (width a) u with
      | Raise e => Raise e
      | Ok c => Ok (cell a r c)
      end
  end.

(** A slice bound along an axis of length [n]: negative bounds count
    from the end, and the result is clamped to [0, n]. *)
Definition adjust (n i : Z) : Z :=
  if i <? 0 then Z.max (i + n) 0 else Z.min i n.

(** The indices selected by [start:stop]. *)
Definition slice_range (n start stop : Z) : list nat :=
  seq (Z.to_nat (adjust n start))
      (Z.to_nat (adjust n stop - adjust n start)).

(** The cells of [a[y0:y1, x0:x1]], row by row. *)
Definition slice_cells (a : ndarray) (y0 y1 x0 x1 : Z) : list (nat * nat) :=
  list_prod (slice_range (height a) y0 y1) (slice_range (width a) x0 x1).

(** [a[y0:y1, x0:x1]] *)
Definition getslice (a : ndarray) (y0 y1 x0 x1 : Z) : ndarray :=
  map (fun r => map (fun c => cell a r c) (slice_range (width a) x0 x1))
      (slice_range (height a) y0 y1).

(** [a[np.isfinite(a)]]: the selected elements, flattened row by row. *)
Definition select_isfinite (a : ndarray) : list float :=
  filter isfinite (concat a).

(** The float32 sum of a one-dimensional array, in the grouping of
    NumPy's pairwise summation.  Fewer than 8 elements are added one
    after the other, starting from 0. *)
Definition sum_loop (res : float) (l : list float) : float :=
  fold_left add32 l res.

(** [r[j] += a[i + j]] for the eight accumulators and the next eight
    elements. *)
Fixpoint add_each (r g : list float) : list float :=
  match r, g with
  | x :: r', y :: g' => add32 x y :: add_each r' g'
  | _, _ => r
  end.

(** [k] rounds of the unrolled loop: the accumulators and what is left of
    the array. *)
Fixpoint unrolled (k : nat) (r l : list float) : list float * list float :=
  match k with
  | O => (r, l)
  | S k' => unrolled k' (add_each r (firstn 8 l)) (skipn 8 l)
  end.

(** [((r0 + r1) + (r2 + r3)) + ((r4 + r5) + (r6 + r7))] *)
Definition combine8 (r : list float) : float :=
  match r with
  | [r0; r1; r2; r3; r4; r5; r6; r7] =>
      add32 (add32 (add32 r0 r1) (add32 r2 r3))
            (add32 (add32 r4 r5) (add32 r6 r7))
  | _ => zero
  end.

(** From 8 to 128 elements: eight accumulators start as the first eight
    elements and take every eighth element each, over the whole groups of
    eight; they are added up in pairs, and the [n mod 8] elements left
    over are added one after the other. *)
Definition sum_block (l : list float) : float :=
  match unrolled (length l / 8 - 1) (firstn 8 l) (skipn 8 l) with
  | (r, rest) => sum_loop (combine8 r) rest
  end.

(** More than 128 elements: the array is cut at [n / 2] rounded down to a
    multiple of 8, and the sums of the two parts are added.  [fuel]
    bounds the depth of the cutting; the length of the array is more
    than enough. *)
Fixpoint pairwise_sum (fuel : nat) (l : list float) : float :=
  let n := length l in
  if (n <? 8)%nat then sum_loop zero l
  else if (n <=? 128)%nat then sum_block l
  else
    match fuel with
    | O => zero
    | S fuel' =>
        let n2 := (n / 2 - (n / 2) mod 8)%nat in
        add32 (pairwise_sum fuel' (firstn n2 l))
              (pairwise_sum fuel' (skipn n2 l))
    end.

(** [np.add.reduce]: the result starts as the identity 0 and the pairwise
    sum of the array is added to it. *)
Definition np_sum (l : list float) : float :=
  add32 zero (pairwise_sum (length l) l).

(** [np.mean] of a one-dimensional float32 array: the float32 sum of the
    elements, divided by their count in binary64, returned as float32. *)
Definition np_mean (l : list float) : float :=
  to_float32 (div64 (to_float64 (np_sum l)) (of_int (Z.of_nat (length l)))).


End Ndarray.
Import Ndarray.

(** ** Detections, points, and what the node prints and calls *)

(** One row of [results[0].boxes.data] after [tolist()]. *)
Record bbox : Type := {
  x_min : float;
  y_min : float;
  x_max : float;
  y_max : float;
  confidence : float;
  class_index : float
}.

Definition point3 : Type := (float * float * float)%type.
Definition pX (p : point3) : float := fst (fst p).
Definition pY (p : point3) : float := snd (fst p).
Definition pZ (p : point3) : float := snd p.

(** The lines written with [print], by the values they carry. *)
Inductive output : Type :=
| InvalidDepth (u v : Z)
| EstimatedDepth (class_name : string) (depth_value : float)
| BoxPoints (point_list : list point3)
| ImageIsNone.

Inductive event : Type :=
| Print (o : output)
| LogError (e : exn)
| CallModel
| Imshow
| DrawBboxes (bboxes : list bbox)
| WaitKey.

Section Node.

(** External collaborators: image buffers and ROS messages are opaque;
    format conversion, the point-cloud reader and the detector are
    supplied from outside.  Displaying and drawing ([cv2.imshow],
    [draw_bboxes], [cv2.waitKey]) are recorded as events. *)
Variable image : Type.
Variable message : Type.
Variable imgmsg_to_cv2_rgb8 : message -> result image.
Variable imgmsg_to_cv2_32FC1 : message -> result ndarray.
Variable cvtColor : image -> image.
Variable read_points : message -> result (list point3).
Variable Vector3dVector : list point3 -> result (list point3).

(** What [self.model(image)] returns: the box rows and the label table. *)
Record results : Type := {
  boxes_data : list bbox;
  names : float -> string
}.
Variable model : image -> results.

(** The fields of the node object that the callbacks read or write.
    [raw_image] names the image array; what [draw_bboxes] draws into that
    array during a tick is carried by the [DrawBboxes] event, and the
    field goes on naming the same array. *)
Record node : Type := {
  raw_image : option image;
  depth_image : option ndarray;
  pcd : option (list point3);
  fx : float;
  fy : float;
  cx : float;
  cy : float
}.

Definition set_raw_image (st : node) (i : image) : node :=
  {| raw_image := Some i; depth_image := depth_image st; pcd := pcd st;
     fx := fx st; fy := fy st; cx := cx st; cy := cy st |}.
Definition set_depth_image (st : node) (d : ndarray) : node :=
  {| raw_image := raw_image st; depth_image := Some d; pcd := pcd st;
     fx := fx st; fy := fy st; cx := cx st; cy := cy st |}.
Definition set_pcd (st : node) (p : list point3) : node :=
  {| raw_image := raw_image st; depth_image := depth_image st; pcd := Some p;
     fx := fx st; fy := fy st; cx := cx st; cy := cy st |}.

(** *** The monad: node state, outcome, and the events of the run *)

Definition M (A : Type) : Type := node -> result A * node * list event.

Definition ret {A : Type} (a : A) : M A := fun st => (Ok a, st, []).

Definition bind {A B : Type} (c : M A) (k : A -> M B) : M B :=
  fun st =>
    match c st with
    | (Ok a, st1, t1) =>
        match k a st1 with
        | (r, st2, t2) => (r, st2, t1 ++ t2)
        end
    | (Raise e, st1, t1) => (Raise e, st1, t1)
    end.

Definition lift {A : Type} (r : result A) : M A := fun st => (r, st, []).
Definition emit (e : event) : M unit := fun st => (Ok tt, st, [e]).
Definition get : M node := fun st => (Ok st, st, []).
Definition put (st' : node) : M unit := fun _ => (Ok tt, st', []).

(** [try: c  except <catches> as e: h e] *)
Definition try_except {A : Type} (c : M A) (catches : exn -> bool)
    (h : exn -> M A) : M A :=
  fun st =>
    match c st with
    | (Raise e, st1, t1) =>
        if catches e then
          match h e st1 with
          | (r, st2, t2) => (r, st2, t1 ++ t2)
          end
        else (Raise e, st1, t1)
    | ok => ok
    end.

(** A computation that leaves the node object as it found it. *)
Definition keeps_node {A : Type} (c : M A) : Prop :=
  forall st : node, snd (fst (c st)) = st.

Notation "x <- c ;; k" := (bind c (fun x => k))
  (at level 61, c at next level, right associativity).
Notation "c ;;; k" := (bind c (fun _ => k))
  (at level 61, right associativity).

Fixpoint mapM {A B : Type} (f : A -> M B) (l : list A) : M (list B) :=
  match l with
  | [] => ret []
  | a :: l' => b <- f a ;; bs <- mapM f l' ;; ret (b :: bs)
  end.

(** *** [pixel_to_pcd] *)

(** [self.depth_image[v, u]]; subscripting [None] is a [TypeError]. *)
Definition depth_at (v u : Z) : M float :=
  st <- get ;;
  match depth_image st with
  | None => lift (Raise TypeError)
  | Some a => lift (getitem a v u)
  end.

Definition invalid_depth (Z : float) : bool :=
  le0 Z || eqf Z inf || isnan Z.

Definition pixel_to_pcd (pixel : Z * Z) : M point3 :=
  let '(u, v) := pixel in
  Z <- depth_at v u ;;
  st <- get ;;
  if invalid_depth Z then
    emit (Print (InvalidDepth u v)) ;;;
    ret (nan, nan, Z)
  else
    let X := div64 (mul64 (to_float64 Z) (sub64 (of_int u) (cx st))) (fx st) in
    let Y := div64 (mul64 (to_float64 Z) (sub64 (of_int v) (cy st))) (fy st) in
    ret (X, Y, Z).

(** *** The stream callbacks *)

(** [self.raw_image.size()]: [size] of an array is an integer attribute,
    so the call is a [TypeError]. *)
Definition size_call (i : image) : result (Z * Z) := Raise TypeError.

Definition image_callback (msg : message) : M unit :=
  try_except
    (img <- lift (imgmsg_to_cv2_rgb8 msg) ;;
     st <- get ;;
     put (set_raw_image st (cvtColor img)) ;;;
     _ <- lift (size_call (cvtColor img)) ;;
     ret tt)
    is_CvBridgeError
    (fun e => emit (LogError e)).

Definition depth_callback (msg : message) : M unit :=
  try_except
    (d <- lift (imgmsg_to_cv2_32FC1 msg) ;;
     st <- get ;;
     put (set_depth_image st d))
    is_CvBridgeError
    (fun e => emit (LogError e)).

(** [self.pcd = o3d.geometry.PointCloud()] caches an empty cloud before
    the points are converted and assigned to it. *)
Definition pcd_callback (msg : message) : M unit :=
  try_except
    (cloud_points <- lift (read_points msg) ;;
     st <- get ;;
     put (set_pcd st []) ;;;
     points <- lift (Vector3dVector cloud_points) ;;
     st <- get ;;
     put (set_pcd st points))
    is_Exception
    (fun e => emit (LogError e)).

(** *** [main_timer_callback] *)

(** [np.mean(valid_depths)] when [valid_depths] is not empty, else NaN. *)
Definition depth_value_of (valid_depths : list float) : float :=
  match valid_depths with
  | [] => nan
  | _ :: _ => np_mean valid_depths
  end.

(** The mean depth of [self.depth_image[y_min:y_max, x_min:x_max]]. *)
Definition box_depth (a : ndarray) (x_min y_min x_max y_max : Z) : float :=
  let depth_values := getslice a y_min y_max x_min x_max in
  let valid_depths := select_isfinite depth_values in
  depth_value_of valid_depths.

Definition pixel_list_of (x_min y_min x_max y_max : Z) : list (Z * Z) :=
  [(x_min, y_min); (x_min, y_max); (x_max, y_min); (x_max, y_max)].

(** [int(x_min), int(x_max), int(y_min), int(y_max)], evaluated in that
    order; the value is kept as [(x_min, y_min, x_max, y_max)]. *)
Definition pixel_bounds (b : bbox) : result (Z * Z * Z * Z) :=
  match py_int (x_min b) with
  | Raise e => Raise e
  | Ok x0 =>
      match py_int (x_max b) with
      | Raise e => Raise e
      | Ok x1 =>
          match py_int (y_min b) with
          | Raise e => Raise e
          | Ok y0 =>
              match py_int (y_max b) with
              | Raise e => Raise e
              | Ok y1 => Ok (x0, y0, x1, y1)
              end
          end
      end
  end.

(** The body of [for bbox in bboxes]; its value is what the iteration
    appends to [bboxes_pcd], the point computed last. *)
Definition bbox_body (res : results) (b : bbox) : M point3 :=
  bounds <- lift (pixel_bounds b) ;;
  let '(x_min, y_min, x_max, y_max) := bounds in
  let pixel_list := pixel_list_of x_min y_min x_max y_max in
  st <- get ;;
  match depth_image st with
  | None => lift (Raise TypeError)
  | Some a =>
      let depth_value := box_depth a x_min y_min x_max y_max in
      let class_name := names res (class_index b) in
      emit (Print (EstimatedDepth class_name depth_value)) ;;;
      point_list <- mapM pixel_to_pcd pixel_list ;;
      emit (Print (BoxPoints point_list)) ;;;
      ret (last point_list (nan, nan, nan))
  end.

Definition main_timer_callback : M unit :=
  st <- get ;;
  match depth_image st, raw_image st with
  | Some _, Some img =>
      emit CallModel ;;;
      let res := model img in
      bboxes_pcd <- mapM (bbox_body res) (boxes_data res) ;;
      emit Imshow ;;;
      emit (DrawBboxes (boxes_data res)) ;;;
      emit WaitKey
  | _, _ => emit (Print ImageIsNone)
  end.

End Node.

(** ** Reading a run *)

(** The pixels [(u, v)] for which [depth_image[v, u]] is inside the array. *)
Definition indexable (a : ndarray) (pixel : Z * Z) : bool :=
  let '(u, v) := pixel in
  (- height a <=? v) && (v <? height a) &&
  (- width a <=? u) && (u <? width a).

(** The cell that [depth_image[v, u]] resolves to. *)
Definition cell_at (a : ndarray) (pixel : Z * Z) : float :=
  let '(u, v) := pixel in
  cell a (Z.to_nat (wrap (height a) v)) (Z.to_nat (wrap (width a) u)).

(** The boxes with finite coordinates whose four corners are indexable. *)
Definition corners_indexable (a : ndarray) (b : bbox) : bool :=
  match pixel_bounds b with
  | Ok (x0, y0, x1, y1) => forallb (indexable a) (pixel_list_of x0 y0 x1 y1)
  | Raise _ => false
  end.

(** The mean depth printed for a box. *)
Definition reported_depth (a : ndarray) (b : bbox) : float :=
  match pixel_bounds b with
  | Ok (x0, y0, x1, y1) => box_depth a x0 y0 x1 y1
  | Raise _ => nan
  end.

(** The "Estimated depth value" lines of a run, in order. *)
Fixpoint estimates (t : list event) : list (string * float) :=
  match t with
  | [] => []
  | Print (EstimatedDepth class_name depth_value) :: t' =>
      (class_name, depth_value) :: estimates t'
  | _ :: t' => estimates t'
  end.

(** The "3d points for bounding box" lines of a run, in order. *)
Fixpoint box_points (t : list event) : list (list point3) :=
  match t with
  | [] => []
  | Print (BoxPoints point_list) :: t' => point_list :: box_points t'
  | _ :: t' => box_points t'
  end.

Definition is_invalid_depth_line (e : event) : bool :=
  match e with
  | Print (InvalidDepth _ _) => true
  | _ => false
  end.

(** ** Sample data *)

Module Sample.

(** A node holding an image and the depth image [a]; focal lengths 100,
    principal point (1, 1). *)
Definition node_with (a : ndarray) : node unit :=
  {| raw_image := Some tt; depth_image := Some a; pcd := None;
     fx := of_int 100; fy := of_int 100; cx := of_int 1; cy := of_int 1 |}.

(** A node that has received an image but no depth image yet. *)
Definition node_without_depth : node unit :=
  {| raw_image := Some tt; depth_image := None; pcd := None;
     fx := of_int 100; fy := of_int 100; cx := of_int 1; cy := of_int 1 |}.

(** A box from pixel (x0, y0) to pixel (x1, y1) with confidence
    [conf / 10] and class 0. *)
Definition box (x0 y0 x1 y1 conf : Z) : bbox :=
  {| x_min := of_int x0; y_min := of_int y0;
     x_max := of_int x1; y_max := of_int y1;
     confidence := f32 conf 10; class_index := of_int 0 |}.

Definition detections (l : list bbox) : results :=
  {| boxes_data := l; names := fun _ => "person"%string |}.

(** One row holding 1.0, NaN, 2.0 and -1.0. *)
Definition mixed_row : ndarray := [[f32 1 1; nan; f32 2 1; f32 (-1) 1]].

(** A single cell holding 0.0. *)
Definition zero_cell : ndarray := [[zero]].

(** Cells without a finite value. *)
Definition dropout_row : ndarray := [[nan; inf]].

(** A 3 x 3 depth image whose corners differ. *)
Definition depth3 : ndarray :=
  [[f32 1 1; f32 1 1; f32 5 1];
   [f32 1 1; f32 1 1; f32 1 1];
   [f32 7 1; f32 1 1; f32 9 1]].

End Sample.

Arguments raw_image {image} n.
Arguments depth_image {image} n.
Arguments pcd {image} n.
Arguments fx {image} n.
Arguments fy {image} n.
Arguments cx {image} n.
Arguments cy {image} n.
Arguments set_raw_image {image} st i.
Arguments set_depth_image {image} st d.
Arguments set_pcd {image} st p.
Arguments keeps_node {image A} c.
Arguments bind {image A B} c k st.
Arguments ret {image A} a st.
Arguments lift {image A} r st.
Arguments emit {image} e st.
Arguments get {image} st.
Arguments pixel_to_pcd {image} pixel st.
Arguments bbox_body {image} res b st.
Arguments mapM {image A B} f l st.
Arguments main_timer_callback {image} model st.
Arguments image_callback {image message} imgmsg_to_cv2_rgb8 cvtColor msg st.
Arguments depth_callback {image message} imgmsg_to_cv2_32FC1 msg st.
Arguments pcd_callback {image message} read_points Vector3dVector msg st.

(** ** [draw_bboxes] *)

(** The calls that draw onto [original_image]: the filled rectangle behind
    a label, and the label text.  A label [f"{name}: {confidence:.2f}"] is
    kept as the pair of values it is formatted from.  The cv2 calls are
    rendered as they go for coordinates that fit a C [int]; beyond that
    range cv2 refuses the call, which [draw_label] does not render. *)
Inductive drawing : Type :=
| Rectangle (pt1 pt2 : Z * Z)
| PutText (label : string * float) (org : Z * Z).

Section Drawing.

(** [cv2.getTextSize(label, font, font_scale, font_thickness)[0]]: the
    width and height of the rendered label. *)
Variable getTextSize : string * float -> Z * Z.

(** The body of [for row in bboxes]. *)
Definition draw_label (res : results) (row : bbox) : result (list drawing) :=
  let label := (names res (class_index row), confidence row) in
  let text_size := getTextSize label in
  match py_int (x_min row) with
  | Raise e => Raise e
  | Ok text_x =>
      match py_int (y_min row) with
      | Raise e => Raise e
      | Ok y =>
          let text_y := y - 10 in
          Ok [Rectangle (text_x, text_y - snd text_size)
                        (text_x + fst text_size, text_y);
              PutText label (text_x, text_y)]
      end
  end.

(** The drawings made on the image, which stay when a later row raises,
    and the outcome of the call. *)
Fixpoint draw_bboxes (res : results) (bboxes : list bbox)
    : list drawing * result unit :=
  match bboxes with
  | [] => ([], Ok tt)
  | row :: rest =>
      match draw_label res row with
      | Raise e => ([], Raise e)
      | Ok ds =>
          match draw_bboxes res rest with
          | (ds', r) => (ds ++ ds', r)
          end
      end
  end.

End Drawing.

(** ** From start to shutdown *)

(** The fields as [__init__] leaves them once the camera has opened: no
    image and no depth image yet, the intrinsics of the left camera. *)
Definition init_node {image : Type} (fx fy cx cy : float) : node image :=
  {| raw_image := None; depth_image := None; pcd := None;
     fx := fx; fy := fy; cx := cx; cy := cy |}.

(** What [rclpy.spin] dispatches: a message on one of the three topics, or
    the timer. *)
Inductive input (message : Type) : Type :=
| ImageMsg (msg : message)
| DepthMsg (msg : message)
| PcdMsg (msg : message)
| TimerTick.
Arguments ImageMsg {message} msg.
Arguments DepthMsg {message} msg.
Arguments PcdMsg {message} msg.
Arguments TimerTick {message}.

Section Spin.

Variable image : Type.
Variable message : Type.
Variable imgmsg_to_cv2_rgb8 : message -> result image.
Variable imgmsg_to_cv2_32FC1 : message -> result ndarray.
Variable cvtColor : image -> image.
Variable read_points : message -> result (list point3).
Variable Vector3dVector : list point3 -> result (list point3).
Variable model : image -> results.

Definition handle (i : input message) : M image unit :=
  match i with
  | ImageMsg msg => image_callback imgmsg_to_cv2_rgb8 cvtColor msg
  | DepthMsg msg => depth_callback imgmsg_to_cv2_32FC1 msg
  | PcdMsg msg => pcd_callback read_points Vector3dVector msg
  | TimerTick => main_timer_callback model
  end.

(** [rclpy.spin(ros2_node)] over the inputs that arrive: the callbacks run
    one after the other, and an exception that escapes one ends the spin. *)
Definition spin (inputs : list (input message)) : M image (list unit) :=
  mapM handle inputs.

End Spin.

Arguments handle {image message} imgmsg_to_cv2_rgb8 imgmsg_to_cv2_32FC1
  cvtColor read_points Vector3dVector model i st.
Arguments spin {image message} imgmsg_to_cv2_rgb8 imgmsg_to_cv2_32FC1
  cvtColor read_points Vector3dVector model inputs st.

(** ** More ways of reading a run *)

Definition is_print (e : event) : bool :=
  match e with
  | Print _ => true
  | _ => false
  end.

(** The invalid-depth lines that the corners [pixels] give rise to. *)
Definition invalid_depth_lines (a : ndarray) (pixels : list (Z * Z))
    : list event :=
  flat_map
    (fun pixel =>
       if is_positive_finite (cell_at a pixel) then []
       else [Print (InvalidDepth (fst pixel) (snd pixel))])
    pixels.

(** The boxes whose four coordinates are finite. *)
Definition finite_bounds (b : bbox) : bool :=
  isfinite (x_min b) && isfinite (x_max b) &&
  isfinite (y_min b) && isfinite (y_max b).

(** Two nodes that agree on everything but the cached point cloud. *)
Definition same_but_pcd {image : Type} (st st' : node image) : Prop :=
  raw_image st' = raw_image st /\ depth_image st' = depth_image st /\
  fx st' = fx st /\ fy st' = fy st /\ cx st' = cx st /\ cy st' = cy st.

(** A computation all of whose events are printed lines. *)
Definition prints_only {image A : Type} (c : M image A) : Prop :=
  forall st : node image, forallb is_print (snd (c st)) = true.

(** The labels written onto the image, in drawing order. *)
Fixpoint drawn_labels (ds : list drawing) : list (string * float) :=
  match ds with
  | [] => []
  | PutText label _ :: ds' => label :: drawn_labels ds'
  | Rectangle _ _ :: ds' => drawn_labels ds'
  end.

(** The integers that a C [int] holds: the coordinates that the cv2
    drawing calls accept. *)
Definition fits_int (z : Z) : bool := (- 2 ^ 31 <=? z) && (z <? 2 ^ 31).

(** The rows whose label can be drawn: [x_min] and [y_min] are finite and
    the corners of the label's rectangle fit a C [int]. *)
Definition label_drawable (getTextSize : string * float -> Z * Z)
    (res : results) (b : bbox) : bool :=
  match py_int (x_min b), py_int (y_min b) with
  | Ok x, Ok y =>
      let text_size := getTextSize (names res (class_index b), confidence b) in
      fits_int x && fits_int (y - 10 - snd text_size) &&
      fits_int (x + fst text_size) && fits_int (y - 10)
  | _, _ => false
  end.

(** Two rows that agree on all but [x_max] and [y_max]. *)
Definition same_near_corner (b b' : bbox) : Prop :=
  x_min b' = x_min b /\ y_min b' = y_min b /\
  confidence b' = confidence b /\ class_index b' = class_index b.

(** What every later state has in common with [st]: a stream that is
    cached stays cached, and the intrinsics are the same. *)
Definition never_cleared {image : Type} (st st' : node image) : Prop :=
  (raw_image st <> None -> raw_image st' <> None) /\
  (depth_image st <> None -> depth_image st' <> None) /\
  (pcd st <> None -> pcd st' <> None) /\
  fx st' = fx st /\ fy st' = fy st /\ cx st' = cx st /\ cy st' = cy st.

Module Scenario.

(** Conversions that succeed on [true] and raise [CvBridgeError] on
    [false]. *)
Definition to_rgb8 (msg : bool) : result unit :=
  if msg then Ok tt else Raise CvBridgeError.
Definition to_32FC1 (msg : bool) : result ndarray :=
  if msg then Ok Sample.depth3 else Raise CvBridgeError.
Definition to_points (msg : bool) : result (list point3) :=
  if msg then Ok [(zero, zero, f32 1 1)] else Raise OtherException.
Definition to_vector (points : list point3) : result (list point3) :=
  match points with
  | [] => Raise OtherException
  | _ :: _ => Ok points
  end.

Definition detector (l : list bbox) (i : unit) : results :=
  Sample.detections l.

(** A box with a NaN left edge. *)
Definition nan_box : bbox :=
  {| x_min := nan; y_min := of_int 0; x_max := of_int 2; y_max := of_int 2;
     confidence := f32 9 10; class_index := of_int 0 |}.

(** Labels rendered 40 pixels wide and 12 pixels high. *)
Definition text_size (label : string * float) : Z * Z := (40, 12).

End Scenario.

(** * Properties *)

(** ** Slices *)

Lemma height_nonneg (a : ndarray) : 0 <= height a.
Proof. unfold height. lia. Qed.

Lemma width_nonneg (a : ndarray) : 0 <= width a.
Proof. unfold width. destruct a; lia. Qed.

Lemma adjust_bounds (n i : Z) : 0 <= n -> 0 <= adjust n i <= n.
Proof.
  intros Hn. unfold adjust.
  destruct (Z.ltb_spec i 0); lia.
Qed.

Lemma slice_range_In (n start stop : Z) (r : nat) :
  0 <= n ->
  In r (slice_range n start stop) <->
  adjust n start <= Z.of_nat r < adjust n stop.
Proof.
  intros Hn. unfold slice_range. rewrite in_seq.
  pose proof (adjust_bounds n start Hn).
  pose proof (adjust_bounds n stop Hn).
  lia.
Qed.

Lemma slice_cells_In (a : ndarray) (y0 y1 x0 x1 : Z) (r c : nat) :
  In (r, c) (slice_cells a y0 y1 x0 x1) <->
  (adjust (height a) y0 <= Z.of_nat r < adjust (height a) y1) /\
  (adjust (width a) x0 <= Z.of_nat c < adjust (width a) x1).
Proof.
  unfold slice_cells. rewrite in_prod_iff.
  rewrite (slice_range_In _ _ _ _ (height_nonneg a)).
  rewrite (slice_range_In _ _ _ _ (width_nonneg a)).
  reflexivity.
Qed.

(** Within a non-empty range the adjusted bounds and the wrapped bounds
    bracket the same indices. *)
Lemma adjust_wrap (n start stop i : Z) :
  0 <= n ->
  adjust n start <= i < adjust n stop ->
  0 <= i < n /\ wrap n start <= i < wrap n stop.
Proof.
  intros Hn. unfold adjust, wrap.
  destruct (Z.ltb_spec start 0); destruct (Z.ltb_spec stop 0); lia.
Qed.

Lemma concat_rows {A : Type} (f : nat -> nat -> A) (rows cols : list nat) :
  concat (map (fun r => map (fun c => f r c) cols) rows) =
  map (fun rc => f (fst rc) (snd rc)) (list_prod rows cols).
Proof.
  induction rows as [|r rows IH]; simpl.
  - reflexivity.
  - rewrite IH, map_app, map_map. reflexivity.
Qed.

Lemma concat_getslice (a : ndarray) (y0 y1 x0 x1 : Z) :
  concat (getslice a y0 y1 x0 x1) =
  map (fun rc => cell a (fst rc) (snd rc)) (slice_cells a y0 y1 x0 x1).
Proof. unfold getslice, slice_cells. apply concat_rows. Qed.

Lemma slice_range_empty (n i : Z) : slice_range n i i = [].
Proof. unfold slice_range. rewrite Z.sub_diag. reflexivity. Qed.

Lemma slice_cells_degenerate (a : ndarray) (x_min y_min x_max y_max : Z) :
  x_min = x_max \/ y_min = y_max ->
  slice_cells a y_min y_max x_min x_max = [].
Proof.
  intros [<- | <-]; unfold slice_cells; rewrite slice_range_empty.
  - induction (slice_range (height a) y_min y_max); simpl; auto.
  - reflexivity.
Qed.

Lemma box_depth_cells (a : ndarray) (x_min y_min x_max y_max : Z) :
  box_depth a x_min y_min x_max y_max =
  depth_value_of
    (filter isfinite
       (map (fun rc => cell a (fst rc) (snd rc))
            (slice_cells a y_min y_max x_min x_max))).
Proof.
  unfold box_depth, select_isfinite. rewrite concat_getslice. reflexivity.
Qed.

(** ** The depth aggregation over a box *)

(** C5, as amended: whatever the rectangle, the values averaged are those
    of the cells of [slice_cells]; every such cell lies inside the depth
    map, and inside the rectangle once a negative coordinate is counted
    from the opposite edge (for non-negative coordinates, the rectangle
    itself). *)
Theorem aggregator_reads_clipped_cells
    (a : ndarray) (x_min y_min x_max y_max : Z) :
  concat (getslice a y_min y_max x_min x_max) =
    map (fun rc => cell a (fst rc) (snd rc))
        (slice_cells a y_min y_max x_min x_max) /\
  forall r c : nat,
    In (r, c) (slice_cells a y_min y_max x_min x_max) ->
    (0 <= Z.of_nat r < height a /\ 0 <= Z.of_nat c < width a) /\
    (wrap (height a) y_min <= Z.of_nat r < wrap (height a) y_max) /\
    (wrap (width a) x_min <= Z.of_nat c < wrap (width a) x_max) /\
    (0 <= y_min -> 0 <= x_min -> 0 <= y_max -> 0 <= x_max ->
     y_min <= Z.of_nat r < y_max /\ x_min <= Z.of_nat c < x_max).
Proof.
  split.
  - apply concat_getslice.
  - intros r c H. apply slice_cells_In in H. destruct H as [Hr Hc].
    apply (adjust_wrap _ _ _ _ (height_nonneg a)) in Hr.
    apply (adjust_wrap _ _ _ _ (width_nonneg a)) in Hc.
    unfold wrap in *.
    destruct (Z.ltb_spec y_min 0); destruct (Z.ltb_spec y_max 0);
      destruct (Z.ltb_spec x_min 0); destruct (Z.ltb_spec x_max 0); lia.
Qed.

(** C5 as stated fails: with columns [-2:-1] of a one-row, four-column
    map the aggregator reads column 2, which is not inside the requested
    rectangle. *)
Lemma negative_rectangle_reads_wrapped_cell :
  In (0%nat, 2%nat) (slice_cells Sample.mixed_row 0 1 (-2) (-1)) /\
  ~ (-2 <= Z.of_nat 2 < -1).
Proof. split; [vm_compute; auto | lia]. Qed.

(** C10: the region is half-open in both axes.  No averaged cell lies in
    row [y_max] or column [x_max], read literally or as the index that
    [depth_image[y_max, x_max]] resolves to; hence none of the corner
    pixels [(x_min, y_max)], [(x_max, y_min)], [(x_max, y_max)] is among
    the averaged cells; and a box with [x_min = x_max] or
    [y_min = y_max] has mean depth NaN. *)
Theorem region_is_half_open
    (a : ndarray) (x_min y_min x_max y_max : Z) :
  (forall r c : nat,
     In (r, c) (slice_cells a y_min y_max x_min x_max) ->
     Z.of_nat r <> y_max /\ Z.of_nat r <> wrap (height a) y_max /\
     Z.of_nat c <> x_max /\ Z.of_nat c <> wrap (width a) x_max) /\
  (forall (u v : Z) (r c : nat),
     In (u, v) [(x_min, y_max); (x_max, y_min); (x_max, y_max)] ->
     In (r, c) (slice_cells a y_min y_max x_min x_max) ->
     (Z.of_nat r, Z.of_nat c) <> (wrap (height a) v, wrap (width a) u)) /\
  (x_min = x_max \/ y_min = y_max ->
   box_depth a x_min y_min x_max y_max = nan).
Proof.
  assert (Hex : forall r c : nat,
     In (r, c) (slice_cells a y_min y_max x_min x_max) ->
     Z.of_nat r <> y_max /\ Z.of_nat r <> wrap (height a) y_max /\
     Z.of_nat c <> x_max /\ Z.of_nat c <> wrap (width a) x_max).
  { intros r c H. apply slice_cells_In in H. destruct H as [Hr Hc].
    apply (adjust_wrap _ _ _ _ (height_nonneg a)) in Hr.
    apply (adjust_wrap _ _ _ _ (width_nonneg a)) in Hc.
    unfold wrap in *.
    destruct (Z.ltb_spec y_max 0); destruct (Z.ltb_spec x_max 0); lia. }
  split; [exact Hex | split].
  - intros u v r c Huv H. destruct (Hex r c H) as (_ & Hr & _ & Hc).
    simpl in Huv.
    destruct Huv as [E | [E | [E | []]]]; inversion E; subst; congruence.
  - intros Hd. rewrite box_depth_cells.
    rewrite (slice_cells_degenerate a _ _ _ _ Hd). reflexivity.
Qed.

(** *** The sum behind the mean *)










(** The depth of the cutting never exceeds the fuel: any two amounts of
    fuel that cover the length give the same sum. *)
Lemma pairwise_sum_fuel (fuel : nat) :
  forall (fuel' : nat) (l : list float),
    (length l <= fuel)%nat -> (length l <= fuel')%nat ->
    pairwise_sum fuel l = pairwise_sum fuel' l.
Proof.
  induction fuel as [|fuel IH]; intros fuel' l H H'.
  - destruct l; [| cbn in H; lia]. destruct fuel'; reflexivity.
  - destruct fuel' as [|fuel'].
    + destruct l; [| cbn in H'; lia]. reflexivity.
    + cbn [pairwise_sum].
      destruct (Nat.ltb_spec (length l) 8); [reflexivity |].
      destruct (Nat.leb_spec (length l) 128); [reflexivity |].
      set (n2 := (length l / 2 - (length l / 2) mod 8)%nat).
      assert (Hn2 : (0 < n2 < length l)%nat).
      { unfold n2.
        pose proof (Nat.div_mod_eq (length l) 2).
        pose proof (Nat.mod_upper_bound (length l) 2).
        pose proof (Nat.mod_upper_bound (length l / 2) 8). lia. }
      rewrite (IH fuel' (firstn n2 l)), (IH fuel' (skipn n2 l));
        try reflexivity;
        rewrite ?length_firstn, ?length_skipn; lia.
Qed.



(** C9, as amended: a region without a finite cell (every cell NaN or an
    infinity, or no cell at all) has mean depth NaN. *)
Theorem no_finite_cell_gives_nan
    (a : ndarray) (x_min y_min x_max y_max : Z)
    (H : forall r c : nat,
           In (r, c) (slice_cells a y_min y_max x_min x_max) ->
           isfinite (cell a r c) = false) :
  box_depth a x_min y_min x_max y_max = nan /\
  isfinite (box_depth a x_min y_min x_max y_max) = false /\
  box_depth a x_min y_min x_max y_max <> zero.
Proof.
  assert (E : box_depth a x_min y_min x_max y_max = nan).
  { rewrite box_depth_cells.
    induction (slice_cells a y_min y_max x_min x_max) as [|[r c] l IH].
    - reflexivity.
    - simpl. rewrite (H r c (or_introl eq_refl)).
      apply IH. intros r' c' Hin. apply H. right. exact Hin. }
  rewrite E. split; [reflexivity | split; [reflexivity | discriminate]].
Qed.

Lemma no_finite_cell_gives_nan_witness :
  box_depth Sample.dropout_row 0 0 2 1 = nan /\
  isfinite (box_depth Sample.dropout_row 0 0 2 1) = false /\
  box_depth Sample.dropout_row 0 0 2 1 <> zero.
Proof.
  apply (no_finite_cell_gives_nan Sample.dropout_row 0 0 2 1).
  intros r c H. vm_compute in H.
  destruct H as [H | [H | []]]; inversion H; reflexivity.
Defined.

(** C9 as stated fails: a region whose only cell is 0.0, an invalid depth,
    has mean depth 0.0. *)
Lemma zero_region_mean_is_zero :
  (forall r c : nat,
     In (r, c) (slice_cells Sample.zero_cell 0 1 0 1) ->
     le0 (cell Sample.zero_cell r c) = true) /\
  box_depth Sample.zero_cell 0 0 1 1 = zero /\
  box_depth Sample.zero_cell 0 0 1 1 <> nan.
Proof.
  split.
  - intros r c H. vm_compute in H.
    destruct H as [H | []]; inversion H; reflexivity.
  - split; [vm_compute; reflexivity | vm_compute; discriminate].
Qed.

(** ** Back-projection of one pixel *)

Lemma invalid_depth_spec (d : float) :
  invalid_depth d = negb (is_positive_finite d).
Proof. destruct d as [[|]|[|]| |[|] m e]; reflexivity. Qed.

Lemma getitem_indexable (a : ndarray) (u v : Z) :
  indexable a (u, v) = true ->
  getitem a v u = Ok (cell_at a (u, v)).
Proof.
  unfold indexable, getitem, check_index, cell_at. intros H.
  apply andb_prop in H. destruct H as [H Hu].
  apply andb_prop in H. destruct H as [Hv Hu'].
  rewrite Hv, Hu', Hu. reflexivity.
Qed.

Lemma getitem_not_indexable (a : ndarray) (u v : Z) :
  indexable a (u, v) = false ->
  getitem a v u = Raise IndexError.
Proof.
  unfold indexable, getitem, check_index. intros H.
  destruct ((- height a <=? v) && (v <? height a)); simpl in *.
  - rewrite H. reflexivity.
  - reflexivity.
Qed.

Section PixelToPcd.

Context {image : Type}.
Variable st : node image.
Variable a : ndarray.
Hypothesis Hdepth : depth_image st = Some a.

(** What [pixel_to_pcd] does, branch by branch. *)
Lemma pixel_to_pcd_eval (u v : Z) :
  pixel_to_pcd (u, v) st =
  match getitem a v u with
  | Raise e => (Raise e, st, [])
  | Ok d =>
      if invalid_depth d then
        (Ok (nan, nan, d), st, [Print (InvalidDepth u v)])
      else
        (Ok (div64 (mul64 (to_float64 d) (sub64 (of_int u) (cx st))) (fx st),
             div64 (mul64 (to_float64 d) (sub64 (of_int v) (cy st))) (fy st),
             d), st, [])
  end.
Proof.
  unfold pixel_to_pcd, depth_at, bind, get, lift, emit, ret.
  rewrite Hdepth.
  destruct (getitem a v u) as [d|e]; [|reflexivity].
  destruct (invalid_depth d); reflexivity.
Qed.

(** An indexable pixel always yields a point, whose third coordinate is
    the depth cell of that pixel; the node is left as it was and only
    "invalid depth" lines are printed. *)
Lemma pixel_to_pcd_indexable (u v : Z) :
  indexable a (u, v) = true ->
  exists (p : point3) (t : list event),
    pixel_to_pcd (u, v) st = (Ok p, st, t) /\
    pZ p = cell_at a (u, v) /\
    forallb is_invalid_depth_line t = true.
Proof.
  intros H. rewrite pixel_to_pcd_eval, (getitem_indexable _ _ _ H).
  destruct (invalid_depth (cell_at a (u, v)));
    eexists; eexists; (split; [reflexivity | split; reflexivity]).
Qed.

End PixelToPcd.

Lemma sub64_diag (x : float) : isfinite x = true -> sub64 x x = zero.
Proof.
  destruct x as [[|]|[|]| |s m e]; simpl; intros H;
    try discriminate; try reflexivity.
  unfold sub64, SFsub. rewrite Z.min_id. unfold shl_align.
  rewrite Z.sub_diag. simpl fst. reflexivity.
Qed.

(** C8: for a pixel whose depth cell [d] is finite and positive,
    [pixel_to_pcd] returns [X = d * (u - cx) / fx], [Y = d * (v - cy) / fy]
    and the third coordinate [d], prints nothing and leaves the node
    untouched; and at the principal point with depth 1.0 the result is
    (0, 0, 1) whatever the (finite, positive) focal lengths. *)
Theorem backprojection_of_valid_depth
    {image : Type} (st : node image) (a : ndarray) (u v : Z) (d : float)
    (Hdepth : depth_image st = Some a)
    (Hcell : getitem a v u = Ok d)
    (Hvalid : is_positive_finite d = true) :
  pixel_to_pcd (u, v) st =
    (Ok (div64 (mul64 (to_float64 d) (sub64 (of_int u) (cx st))) (fx st),
         div64 (mul64 (to_float64 d) (sub64 (of_int v) (cy st))) (fy st),
         d), st, []) /\
  (d = f32 1 1 ->
   cx st = of_int u -> cy st = of_int v ->
   isfinite (cx st) = true -> isfinite (cy st) = true ->
   is_positive_finite (fx st) = true ->
   is_positive_finite (fy st) = true ->
   pixel_to_pcd (u, v) st = (Ok (zero, zero, f32 1 1), st, [])).
Proof.
  assert (E := pixel_to_pcd_eval st a Hdepth u v).
  rewrite Hcell, invalid_depth_spec, Hvalid in E. cbn [negb] in E.
  split; [exact E |].
  intros Hd Hcx Hcy Fcx Fcy Ffx Ffy. rewrite E.
  rewrite <- Hcx, <- Hcy, (sub64_diag _ Fcx), (sub64_diag _ Fcy). subst d.
  destruct (fx st) as [?|?| |[|] mx ex]; try discriminate.
  destruct (fy st) as [?|?| |[|] my ey]; try discriminate.
  reflexivity.
Qed.

Lemma backprojection_of_valid_depth_witness :
  pixel_to_pcd (1, 1) (Sample.node_with Sample.depth3) =
    (Ok (zero, zero, f32 1 1), Sample.node_with Sample.depth3, []).
Proof.
  refine (proj2 (backprojection_of_valid_depth
            (Sample.node_with Sample.depth3) Sample.depth3 1 1 (f32 1 1)
            eq_refl eq_refl eq_refl)
          eq_refl eq_refl eq_refl eq_refl eq_refl eq_refl eq_refl).
Defined.

(** C3, as amended: for a pixel whose depth cell [d] is NaN, infinite,
    zero or negative, [pixel_to_pcd] prints the invalid-depth line, raises
    nothing, and returns [(NaN, NaN, d)]: the first two coordinates are
    NaN, the third is the cell itself, which is finite when [d] is zero
    or negative. *)
Theorem invalid_depth_gives_nan_xy
    {image : Type} (st : node image) (a : ndarray) (u v : Z) (d : float)
    (Hdepth : depth_image st = Some a)
    (Hcell : getitem a v u = Ok d)
    (Hinvalid : is_positive_finite d = false) :
  pixel_to_pcd (u, v) st =
    (Ok (nan, nan, d), st, [Print (InvalidDepth u v)]).
Proof.
  rewrite (pixel_to_pcd_eval st a Hdepth), Hcell, invalid_depth_spec, Hinvalid.
  reflexivity.
Qed.

Lemma invalid_depth_gives_nan_xy_witness :
  pixel_to_pcd (1, 0) (Sample.node_with Sample.dropout_row) =
    (Ok (nan, nan, inf), Sample.node_with Sample.dropout_row,
     [Print (InvalidDepth 1 0)]).
Proof.
  exact (invalid_depth_gives_nan_xy
           (Sample.node_with Sample.dropout_row) Sample.dropout_row 1 0 inf
           eq_refl eq_refl eq_refl).
Defined.

(** C3 as stated fails: for the depths 0.0 and -1.0 the returned point
    keeps a finite third coordinate. *)
Lemma nonpositive_depth_keeps_finite_z :
  pixel_to_pcd (0, 0) (Sample.node_with Sample.zero_cell) =
    (Ok (nan, nan, zero), Sample.node_with Sample.zero_cell,
     [Print (InvalidDepth 0 0)]) /\
  isfinite (pZ (nan, nan, zero)) = true /\
  pixel_to_pcd (3, 0) (Sample.node_with Sample.mixed_row) =
    (Ok (nan, nan, f32 (-1) 1), Sample.node_with Sample.mixed_row,
     [Print (InvalidDepth 3 0)]) /\
  isfinite (pZ (nan, nan, f32 (-1) 1)) = true.
Proof. repeat split; vm_compute; reflexivity. Qed.

(** ** The node object is only written by the stream callbacks *)

Section KeepsNode.

Context {image : Type}.

Lemma keeps_node_ret {A : Type} (x : A) : keeps_node (image := image) (ret x).
Proof. intros st. reflexivity. Qed.

Lemma keeps_node_lift {A : Type} (r : result A) :
  keeps_node (image := image) (lift r).
Proof. intros st. reflexivity. Qed.

Lemma keeps_node_emit (e : event) : keeps_node (image := image) (emit e).
Proof. intros st. reflexivity. Qed.

Lemma keeps_node_get : keeps_node (image := image) get.
Proof. intros st. reflexivity. Qed.

Lemma keeps_node_bind {A B : Type} (c : M image A) (k : A -> M image B) :
  keeps_node c -> (forall x : A, keeps_node (k x)) ->
  keeps_node (bind c k).
Proof.
  intros Hc Hk st. unfold bind.
  specialize (Hc st). destruct (c st) as [[[x|e] st1] t1]; simpl in Hc; subst.
  - specialize (Hk x st). destruct (k x st) as [[r st2] t2]. exact Hk.
  - reflexivity.
Qed.

Lemma keeps_node_mapM {A B : Type} (f : A -> M image B) (l : list A) :
  (forall x : A, keeps_node (f x)) -> keeps_node (mapM f l).
Proof.
  intros Hf. induction l as [|x l IH]; simpl.
  - apply keeps_node_ret.
  - apply keeps_node_bind; [apply Hf | intros b].
    apply keeps_node_bind; [exact IH | intros bs]. apply keeps_node_ret.
Qed.

Lemma keeps_node_pixel_to_pcd (pixel : Z * Z) :
  keeps_node (image := image) (pixel_to_pcd pixel).
Proof.
  destruct pixel as [u v]. unfold pixel_to_pcd.
  apply keeps_node_bind.
  - apply keeps_node_bind; [apply keeps_node_get | intros st].
    destruct (depth_image st); apply keeps_node_lift.
  - intros d. apply keeps_node_bind; [apply keeps_node_get | intros st].
    destruct (invalid_depth d).
    + apply keeps_node_bind; [apply keeps_node_emit | intros _].
      apply keeps_node_ret.
    + apply keeps_node_ret.
Qed.

Lemma keeps_node_bbox_body (res : results) (b : bbox) :
  keeps_node (image := image) (bbox_body res b).
Proof.
  unfold bbox_body.
  apply keeps_node_bind; [apply keeps_node_lift | intros [[[x0 y0] x1] y1]].
  apply keeps_node_bind; [apply keeps_node_get | intros st].
  destruct (depth_image st); [|apply keeps_node_lift].
  apply keeps_node_bind; [apply keeps_node_emit | intros _].
  apply keeps_node_bind;
    [apply keeps_node_mapM; apply keeps_node_pixel_to_pcd | intros pts].
  apply keeps_node_bind; [apply keeps_node_emit | intros _].
  apply keeps_node_ret.
Qed.

End KeepsNode.

(** ** The loop over the detections *)

Lemma estimates_app (t1 t2 : list event) :
  estimates (t1 ++ t2) = estimates t1 ++ estimates t2.
Proof.
  induction t1 as [|e t1 IH]; simpl; [reflexivity |].
  destruct e as [[| | |]| | | |bs |]; simpl; rewrite IH; reflexivity.
Qed.

Lemma box_points_app (t1 t2 : list event) :
  box_points (t1 ++ t2) = box_points t1 ++ box_points t2.
Proof.
  induction t1 as [|e t1 IH]; simpl; [reflexivity |].
  destruct e as [[| | |]| | | |bs |]; simpl; rewrite IH; reflexivity.
Qed.

Lemma invalid_depth_lines_carry_no_estimate (t : list event) :
  forallb is_invalid_depth_line t = true ->
  estimates t = [] /\ box_points t = [].
Proof.
  induction t as [|e t IH]; simpl; [auto |].
  intros H. apply andb_prop in H. destruct H as [He Ht].
  destruct e as [[| | |]| | | |bs |]; try discriminate. auto.
Qed.

Section FusionLoop.

Context {image : Type}.
Variable st : node image.
Variable a : ndarray.
Hypothesis Hdepth : depth_image st = Some a.

Lemma corner_points_run (pixels : list (Z * Z)) :
  forallb (indexable a) pixels = true ->
  exists (pts : list point3) (t : list event),
    mapM pixel_to_pcd pixels st = (Ok pts, st, t) /\
    map pZ pts = map (cell_at a) pixels /\
    forallb is_invalid_depth_line t = true.
Proof.
  induction pixels as [|[u v] pixels IH]; intros H.
  - exists [], []. auto.
  - cbn [forallb] in H. cbn [mapM].
    apply andb_prop in H. destruct H as [Huv Hrest].
    destruct (pixel_to_pcd_indexable st a Hdepth u v Huv)
      as (p & t1 & Ep & Hz & Ht1).
    destruct (IH Hrest) as (pts & t2 & Epts & Hzs & Ht2).
    exists (p :: pts), (t1 ++ t2 ++ []).
    unfold bind at 1. rewrite Ep.
    unfold bind at 1. rewrite Epts.
    split; [reflexivity |]. split.
    + simpl. rewrite Hz, Hzs. reflexivity.
    + rewrite !forallb_app, Ht1, Ht2. reflexivity.
Qed.

(** One iteration on a box with finite coordinates and indexable
    corners: the depth line, possibly invalid-depth lines, the points
    line; the points' third coordinates are the corners' depth cells. *)
Lemma bbox_body_run (res : results) (b : bbox) (x0 y0 x1 y1 : Z) :
  pixel_bounds b = Ok (x0, y0, x1, y1) ->
  forallb (indexable a) (pixel_list_of x0 y0 x1 y1) = true ->
  exists (pts : list point3) (t : list event),
    bbox_body res b st =
      (Ok (last pts (nan, nan, nan)), st,
       Print (EstimatedDepth (names res (class_index b))
                             (box_depth a x0 y0 x1 y1))
         :: t ++ [Print (BoxPoints pts)]) /\
    map pZ pts = map (cell_at a) (pixel_list_of x0 y0 x1 y1) /\
    forallb is_invalid_depth_line t = true.
Proof.
  intros Hb Hidx.
  destruct (corner_points_run _ Hidx) as (pts & t & Epts & Hz & Ht).
  exists pts, t. split; [|auto].
  unfold bbox_body.
  unfold bind at 1. unfold lift at 1. rewrite Hb.
  unfold bind at 1. unfold get at 1. rewrite Hdepth.
  unfold bind at 1. unfold emit at 1.
  unfold bind at 1. rewrite Epts.
  unfold bind, emit, ret. simpl. reflexivity.
Qed.

Lemma fusion_loop_run (res : results) (bboxes : list bbox) :
  forallb (corners_indexable a) bboxes = true ->
  exists (bboxes_pcd : list point3) (t : list event),
    mapM (bbox_body res) bboxes st = (Ok bboxes_pcd, st, t) /\
    length bboxes_pcd = length bboxes /\
    estimates t =
      map (fun b => (names res (class_index b), reported_depth a b)) bboxes /\
    length (box_points t) = length bboxes /\
    Forall (fun pts => length pts = 4%nat) (box_points t).
Proof.
  induction bboxes as [|b bboxes IH]; intros H.
  - exists [], []. repeat split; constructor.
  - cbn [forallb] in H. cbn [mapM map length].
    apply andb_prop in H. destruct H as [Hb Hrest].
    unfold corners_indexable in Hb. unfold reported_depth at 1.
    destruct (pixel_bounds b) as [[[[x0 y0] x1] y1]|e] eqn:Eb;
      [|discriminate].
    destruct (bbox_body_run res b x0 y0 x1 y1 Eb Hb)
      as (pts & t1 & E1 & Hz & Ht1).
    destruct (IH Hrest) as (pcd' & t2 & E2 & Hlen & Hest & Hbp & Hfour).
    destruct (invalid_depth_lines_carry_no_estimate t1 Ht1) as [He1 Hb1].
    eexists; eexists.
    unfold bind at 1. rewrite E1.
    unfold bind at 1. rewrite E2.
    split; [reflexivity |].
    assert (Hpts : length pts = 4%nat).
    { rewrite <- (length_map pZ), Hz. reflexivity. }
    simpl. rewrite !estimates_app, !box_points_app, He1, Hb1. simpl.
    rewrite !app_nil_r, Hlen, Hest, Hbp.
    repeat split. constructor; assumption.
Qed.

End FusionLoop.

(** C1, as amended: for a detection with finite coordinates whose four
    corner pixels index the depth image, the iteration prints the mean
    depth of the box and then back-projects each corner with the depth
    cell of that corner: the third coordinates of the four points are
    [depth_image[y_min, x_min]], [depth_image[y_max, x_min]],
    [depth_image[y_min, x_max]] and [depth_image[y_max, x_max]], whatever
    the mean depth is. *)
Theorem corners_use_their_own_depth_cell
    {image : Type} (st : node image) (a : ndarray) (res : results)
    (b : bbox) (x0 y0 x1 y1 : Z)
    (Hdepth : depth_image st = Some a)
    (Hbounds : pixel_bounds b = Ok (x0, y0, x1, y1))
    (Hidx : forallb (indexable a) (pixel_list_of x0 y0 x1 y1) = true) :
  exists (pts : list point3) (t : list event),
    bbox_body res b st =
      (Ok (last pts (nan, nan, nan)), st,
       Print (EstimatedDepth (names res (class_index b))
                             (box_depth a x0 y0 x1 y1))
         :: t ++ [Print (BoxPoints pts)]) /\
    map pZ pts =
      [cell_at a (x0, y0); cell_at a (x0, y1);
       cell_at a (x1, y0); cell_at a (x1, y1)].
Proof.
  destruct (bbox_body_run st a Hdepth res b x0 y0 x1 y1 Hbounds Hidx)
    as (pts & t & E & Hz & _).
  exists pts, t. split; [exact E | exact Hz].
Qed.

Lemma corners_use_their_own_depth_cell_witness :
  exists (pts : list point3) (t : list event),
    bbox_body (Sample.detections []) (Sample.box 0 0 2 2 9)
              (Sample.node_with Sample.depth3) =
      (Ok (last pts (nan, nan, nan)), Sample.node_with Sample.depth3,
       Print (EstimatedDepth "person" (box_depth Sample.depth3 0 0 2 2))
         :: t ++ [Print (BoxPoints pts)]) /\
    map pZ pts =
      [cell_at Sample.depth3 (0, 0); cell_at Sample.depth3 (0, 2);
       cell_at Sample.depth3 (2, 0); cell_at Sample.depth3 (2, 2)].
Proof.
  exact (corners_use_their_own_depth_cell
           (Sample.node_with Sample.depth3) Sample.depth3
           (Sample.detections []) (Sample.box 0 0 2 2 9) 0 0 2 2
           eq_refl eq_refl eq_refl).
Defined.

(** C1 as stated fails: on the 3 x 3 sample image the box (0, 0)-(2, 2)
    has the finite mean depth 1.0, while the third coordinates of its four
    corner points are 1.0, 7.0, 5.0 and 9.0. *)
Lemma corner_depths_differ_from_mean :
  exists (p : point3) (pts : list point3),
    bbox_body (Sample.detections []) (Sample.box 0 0 2 2 9)
              (Sample.node_with Sample.depth3) =
      (Ok p, Sample.node_with Sample.depth3,
       [Print (EstimatedDepth "person" (f32 1 1)); Print (BoxPoints pts)]) /\
    isfinite (f32 1 1) = true /\
    map pZ pts = [f32 1 1; f32 7 1; f32 5 1; f32 9 1] /\
    ~ (forall q : point3, In q pts -> pZ q = f32 1 1).
Proof.
  eexists. eexists.
  split; [vm_compute; reflexivity |].
  split; [reflexivity |].
  split; [vm_compute; reflexivity |].
  intros H.
  specialize (H _ (or_intror (or_introl eq_refl))).
  vm_compute in H. discriminate H.
Qed.

(** C6, as amended: for N detections with finite coordinates whose corner
    pixels all index the depth image, the loop completes, appends exactly
    N entries to [bboxes_pcd], and prints, detection by detection and in
    the order received, the class name and mean depth of the box followed
    by its four corner points - also for a box whose mean depth is NaN.
    The confidence is not part of what the pass produces. *)
Theorem fusion_reports_every_detection
    {image : Type} (model : image -> results) (st : node image)
    (img : image) (a : ndarray)
    (Himg : raw_image st = Some img)
    (Hdepth : depth_image st = Some a)
    (Hidx : forallb (corners_indexable a) (boxes_data (model img)) = true) :
  let res := model img in
  exists (bboxes_pcd : list point3) (t : list event),
    mapM (bbox_body res) (boxes_data res) st = (Ok bboxes_pcd, st, t) /\
    main_timer_callback model st =
      (Ok tt, st,
       CallModel :: t ++ [Imshow; DrawBboxes (boxes_data res); WaitKey]) /\
    length bboxes_pcd = length (boxes_data res) /\
    estimates t =
      map (fun b => (names res (class_index b), reported_depth a b))
          (boxes_data res) /\
    length (box_points t) = length (boxes_data res) /\
    Forall (fun pts => length pts = 4%nat) (box_points t).
Proof.
  intros res.
  destruct (fusion_loop_run st a Hdepth res (boxes_data res) Hidx)
    as (pcd' & t & E & Hlen & Hest & Hbp & Hfour).
  exists pcd', t.
  split; [exact E |]. split; [| auto].
  unfold main_timer_callback.
  unfold bind at 1. unfold get at 1. rewrite Hdepth, Himg.
  unfold bind at 1. unfold emit at 1.
  unfold bind at 1. fold res. rewrite E.
  reflexivity.
Qed.

Lemma fusion_reports_every_detection_witness :
  exists (bboxes_pcd : list point3) (t : list event),
    mapM (bbox_body (Sample.detections [Sample.box 0 0 2 2 9;
                                        Sample.box 1 1 1 1 5]))
         [Sample.box 0 0 2 2 9; Sample.box 1 1 1 1 5]
         (Sample.node_with Sample.depth3) =
      (Ok bboxes_pcd, Sample.node_with Sample.depth3, t) /\
    main_timer_callback
      (fun _ => Sample.detections [Sample.box 0 0 2 2 9; Sample.box 1 1 1 1 5])
      (Sample.node_with Sample.depth3) =
      (Ok tt, Sample.node_with Sample.depth3,
       CallModel :: t ++
         [Imshow;
          DrawBboxes [Sample.box 0 0 2 2 9; Sample.box 1 1 1 1 5];
          WaitKey]) /\
    length bboxes_pcd = 2%nat /\
    estimates t = [("person"%string, f32 1 1); ("person"%string, nan)] /\
    length (box_points t) = 2%nat /\
    Forall (fun pts => length pts = 4%nat) (box_points t).
Proof.
  exact (fusion_reports_every_detection
           (fun _ => Sample.detections [Sample.box 0 0 2 2 9;
                                        Sample.box 1 1 1 1 5])
           (Sample.node_with Sample.depth3) tt Sample.depth3
           eq_refl eq_refl eq_refl).
Defined.

(** C6 as stated fails.  Two detections that differ only in confidence
    give the same run of the loop, so the confidence is not carried into
    what the pass produces; and a detection whose box reaches the right
    and bottom edge of a 3 x 3 image ([x_max = y_max = 3]) ends the pass
    with an [IndexError] before any corner points are reported. *)
Lemma fusion_drops_confidence :
  mapM (bbox_body (Sample.detections [])) [Sample.box 0 0 2 2 9]
       (Sample.node_with Sample.depth3) =
  mapM (bbox_body (Sample.detections [])) [Sample.box 0 0 2 2 1]
       (Sample.node_with Sample.depth3) /\
  confidence (Sample.box 0 0 2 2 9) <> confidence (Sample.box 0 0 2 2 1) /\
  exists t : list event,
    main_timer_callback (fun _ => Sample.detections [Sample.box 0 0 3 3 9])
                        (Sample.node_with Sample.depth3) =
      (Raise IndexError, Sample.node_with Sample.depth3, t) /\
    box_points t = [].
Proof.
  split; [vm_compute; reflexivity |].
  split; [vm_compute; discriminate |].
  eexists. split; vm_compute; reflexivity.
Qed.

(** ** The timer tick and the stream callbacks *)

Lemma main_timer_callback_idle
    {image : Type} (model : image -> results) (st : node image) :
  raw_image st = None \/ depth_image st = None ->
  main_timer_callback model st = (Ok tt, st, [Print ImageIsNone]).
Proof.
  intros H. unfold main_timer_callback.
  unfold bind at 1. unfold get at 1.
  destruct H as [H | H]; rewrite H.
  - destruct (depth_image st); reflexivity.
  - reflexivity.
Qed.

Lemma main_timer_callback_active
    {image : Type} (model : image -> results) (st : node image)
    (img : image) (a : ndarray) :
  raw_image st = Some img -> depth_image st = Some a ->
  exists (r : result unit) (t : list event),
    main_timer_callback model st = (r, st, CallModel :: t).
Proof.
  intros Himg Hdepth. unfold main_timer_callback.
  unfold bind at 1. unfold get at 1. rewrite Hdepth, Himg.
  unfold bind at 1. unfold emit at 1.
  match goal with
  | |- context [bind ?c ?k st] =>
      assert (K : keeps_node (bind c k));
      [| specialize (K st); destruct (bind c k st) as [[r st2] t2] ]
  end.
  - apply keeps_node_bind;
      [apply keeps_node_mapM; intros b; apply keeps_node_bbox_body |].
    intros _.
    apply keeps_node_bind; [apply keeps_node_emit | intros _].
    apply keeps_node_bind; [apply keeps_node_emit | intros _].
    apply keeps_node_emit.
  - simpl in K. subst st2. exists r, t2. reflexivity.
Qed.



(** C4 fails in [image_callback]: whenever the conversion of the message
    succeeds, the callback stores the image and then raises [TypeError],
    which its [except CvBridgeError] clause does not catch. *)
Theorem image_callback_raises_TypeError
    {image message : Type} (imgmsg_to_cv2_rgb8 : message -> result image)
    (cvtColor : image -> image) (msg : message) (img : image)
    (st : node image)
    (Hconv : imgmsg_to_cv2_rgb8 msg = Ok img) :
  image_callback imgmsg_to_cv2_rgb8 cvtColor msg st =
    (Raise TypeError, set_raw_image st (cvtColor img), []).
Proof.
  unfold image_callback, try_except, bind, lift, get, put, size_call.
  rewrite Hconv. reflexivity.
Qed.

Lemma image_callback_raises_TypeError_witness :
  image_callback (fun _ : unit => Ok tt) (fun i : unit => i) tt
                 Sample.node_without_depth =
    (Raise TypeError, set_raw_image Sample.node_without_depth tt, []).
Proof.
  exact (image_callback_raises_TypeError
           (fun _ : unit => Ok tt) (fun i : unit => i) tt tt
           Sample.node_without_depth eq_refl).
Defined.

(** The other two stream callbacks: a [CvBridgeError] is logged and the
    cached value kept; [pcd_callback] catches every exception. *)
Lemma depth_callback_logs_CvBridgeError
    {image message : Type} (imgmsg_to_cv2_32FC1 : message -> result ndarray)
    (msg : message) (st : node image) :
  imgmsg_to_cv2_32FC1 msg = Raise CvBridgeError ->
  depth_callback imgmsg_to_cv2_32FC1 msg st =
    (Ok tt, st, [LogError CvBridgeError]).
Proof.
  intros H. unfold depth_callback, try_except, bind, lift, emit.
  rewrite H. reflexivity.
Qed.

Lemma pcd_callback_never_raises
    {image message : Type} (read_points : message -> result (list point3))
    (Vector3dVector : list point3 -> result (list point3))
    (msg : message) (st : node image) :
  exists (st' : node image) (t : list event),
    pcd_callback read_points Vector3dVector msg st = (Ok tt, st', t).
Proof.
  unfold pcd_callback, try_except, bind, lift, get, put, emit.
  destruct (read_points msg) as [pts | e]; [| simpl; eauto].
  destruct (Vector3dVector pts) as [points | e]; simpl; eauto.
Qed.

(** * Further properties of the node *)

(** ** How [mapM] runs a loop *)

Section MapM.

Context {image A B : Type}.
Variable f : A -> M image B.

Lemma mapM_cons_raise (x : A) (l : list A) (st st1 : node image)
    (e : exn) (t : list event) :
  f x st = (Raise e, st1, t) ->
  mapM f (x :: l) st = (Raise e, st1, t).
Proof. intros H. cbn [mapM]. unfold bind at 1. rewrite H. reflexivity. Qed.

Lemma mapM_cons_ok (x : A) (l : list A) (st st1 : node image)
    (y : B) (t : list event) :
  f x st = (Ok y, st1, t) ->
  mapM f (x :: l) st =
    match mapM f l st1 with
    | (Ok ys, st2, t2) => (Ok (y :: ys), st2, t ++ t2)
    | (Raise e, st2, t2) => (Raise e, st2, t ++ t2)
    end.
Proof.
  intros H. cbn [mapM]. unfold bind at 1. rewrite H.
  unfold bind at 1. destruct (mapM f l st1) as [[[ys | e] st2] t2].
  - unfold ret. rewrite app_nil_r. reflexivity.
  - reflexivity.
Qed.

Lemma mapM_app_raise (l1 l2 : list A) :
  forall (st st1 st2 : node image) (ys : list B) (e : exn)
         (t1 t2 : list event),
    mapM f l1 st = (Ok ys, st1, t1) ->
    mapM f l2 st1 = (Raise e, st2, t2) ->
    mapM f (l1 ++ l2) st = (Raise e, st2, t1 ++ t2).
Proof.
  induction l1 as [|x l1 IH]; intros st st1 st2 ys e t1 t2 H1 H2.
  - cbn in H1. inversion H1; subst. exact H2.
  - cbn [app]. destruct (f x st) as [[[y | e'] sx] tx] eqn:Ex.
    + rewrite (mapM_cons_ok x l1 _ _ _ _ Ex) in H1.
      rewrite (mapM_cons_ok x (l1 ++ l2) _ _ _ _ Ex).
      destruct (mapM f l1 sx) as [[[ys' | e''] s'] t'] eqn:El;
        inversion H1; subst.
      rewrite (IH _ _ _ _ _ _ _ El H2), app_assoc. reflexivity.
    + rewrite (mapM_cons_raise _ _ _ _ _ _ Ex) in H1. discriminate.
Qed.

Lemma prints_only_mapM (l : list A) :
  (forall x : A, prints_only (f x)) -> prints_only (mapM f l).
Proof.
  intros Hf. induction l as [|x l IH]; intros st.
  - reflexivity.
  - specialize (Hf x st).
    destruct (f x st) as [[[y | e] sx] tx] eqn:Ex; simpl in Hf.
    + rewrite (mapM_cons_ok _ _ _ _ _ _ Ex).
      specialize (IH sx).
      destruct (mapM f l sx) as [[[ys | e] s'] t']; simpl in *;
        rewrite forallb_app, Hf, IH; reflexivity.
    + rewrite (mapM_cons_raise _ _ _ _ _ _ Ex). exact Hf.
Qed.

End MapM.

(** ** The stream cache *)

(** Two depth messages in a row, the first converted to [d1]: a second
    good conversion replaces [d1]; a [CvBridgeError] on the second is
    logged and [d1] stays cached; any other exception escapes the callback,
    with [d1] still cached.  The image, the point cloud and the intrinsics
    are as before in each case. *)
Theorem depth_cache_keeps_last_good_image
    {image message : Type} (imgmsg_to_cv2_32FC1 : message -> result ndarray)
    (m1 m2 : message) (d1 : ndarray) (st : node image)
    (H1 : imgmsg_to_cv2_32FC1 m1 = Ok d1) :
  let twice :=
    bind (depth_callback imgmsg_to_cv2_32FC1 m1)
         (fun _ => depth_callback imgmsg_to_cv2_32FC1 m2) st in
  (forall d2 : ndarray,
     imgmsg_to_cv2_32FC1 m2 = Ok d2 ->
     twice = (Ok tt, set_depth_image st d2, [])) /\
  (imgmsg_to_cv2_32FC1 m2 = Raise CvBridgeError ->
   twice = (Ok tt, set_depth_image st d1, [LogError CvBridgeError])) /\
  (forall e : exn,
     imgmsg_to_cv2_32FC1 m2 = Raise e -> e <> CvBridgeError ->
     twice = (Raise e, set_depth_image st d1, [])).
Proof.
  intros twice.
  assert (E : twice =
    match imgmsg_to_cv2_32FC1 m2 with
    | Ok d2 => (Ok tt, set_depth_image st d2, [])
    | Raise e =>
        if is_CvBridgeError e
        then (Ok tt, set_depth_image st d1, [LogError e])
        else (Raise e, set_depth_image st d1, [])
    end).
  { unfold twice, depth_callback, try_except, bind, lift, get, put, emit.
    rewrite H1. destruct (imgmsg_to_cv2_32FC1 m2) as [d2 | e];
      [reflexivity | destruct (is_CvBridgeError e); reflexivity]. }
  rewrite E. clear E twice.
  split; [| split].
  - intros d2 H2. rewrite H2. reflexivity.
  - intros H2. rewrite H2. reflexivity.
  - intros e H2 He. rewrite H2.
    destruct e; try reflexivity. contradiction He. reflexivity.
Qed.

Lemma depth_cache_keeps_last_good_image_witness :
  bind (depth_callback Scenario.to_32FC1 true)
       (fun _ => depth_callback Scenario.to_32FC1 false)
       Sample.node_without_depth =
    (Ok tt, set_depth_image Sample.node_without_depth Sample.depth3,
     [LogError CvBridgeError]).
Proof.
  exact (proj1 (proj2 (depth_cache_keeps_last_good_image
                         Scenario.to_32FC1 true false Sample.depth3
                         Sample.node_without_depth eq_refl))
               eq_refl).
Defined.

(** [image_callback] returns normally exactly when the conversion raised
    [CvBridgeError], and then the node is untouched and the error logged;
    any other exception of the conversion escapes with the node
    untouched.  So no normal return of the callback ever stores an image. *)
Theorem image_callback_returns_only_on_CvBridgeError
    {image message : Type} (imgmsg_to_cv2_rgb8 : message -> result image)
    (cvtColor : image -> image) (msg : message) (st : node image) :
  (imgmsg_to_cv2_rgb8 msg = Raise CvBridgeError ->
   image_callback imgmsg_to_cv2_rgb8 cvtColor msg st =
     (Ok tt, st, [LogError CvBridgeError])) /\
  (forall (st' : node image) (t : list event),
     image_callback imgmsg_to_cv2_rgb8 cvtColor msg st = (Ok tt, st', t) ->
     imgmsg_to_cv2_rgb8 msg = Raise CvBridgeError /\ st' = st) /\
  (forall e : exn,
     imgmsg_to_cv2_rgb8 msg = Raise e -> e <> CvBridgeError ->
     image_callback imgmsg_to_cv2_rgb8 cvtColor msg st = (Raise e, st, [])).
Proof.
  unfold image_callback, try_except, bind, lift, get, put, emit, size_call.
  destruct (imgmsg_to_cv2_rgb8 msg) as [img | e]; cbn.
  - split; [discriminate |]. split; [discriminate |]. discriminate.
  - split; [intros H; inversion H; reflexivity |].
    split.
    + intros st' t H. destruct e; inversion H. auto.
    + intros e' H He. inversion H; subst e'.
      destruct e; try reflexivity. contradiction He. reflexivity.
Qed.

(** ** The tick reads the node and never writes it *)

Lemma keeps_node_main_timer_callback
    {image : Type} (model : image -> results) :
  keeps_node (main_timer_callback model).
Proof.
  unfold main_timer_callback.
  apply keeps_node_bind; [apply keeps_node_get | intros st].
  destruct (depth_image st); [| apply keeps_node_emit].
  destruct (raw_image st); [| apply keeps_node_emit].
  apply keeps_node_bind; [apply keeps_node_emit | intros _].
  apply keeps_node_bind;
    [apply keeps_node_mapM; intros b; apply keeps_node_bbox_body | intros _].
  apply keeps_node_bind; [apply keeps_node_emit | intros _].
  apply keeps_node_bind; [apply keeps_node_emit | intros _].
  apply keeps_node_emit.
Qed.

(** Whether it completes or raises, a tick assigns no field of the node:
    the cached depth image, the cached point cloud and the intrinsics are
    afterwards what they were, and an image stays cached exactly if one
    was.  (What [draw_bboxes] draws into the cached image array is not
    part of this statement.) *)
Theorem tick_assigns_no_field
    {image : Type} (model : image -> results) (st : node image) :
  let st' := snd (fst (main_timer_callback model st)) in
  depth_image st' = depth_image st /\ pcd st' = pcd st /\
  fx st' = fx st /\ fy st' = fy st /\ cx st' = cx st /\ cy st' = cy st /\
  (raw_image st' = None <-> raw_image st = None).
Proof.
  intros st'. unfold st'.
  rewrite (keeps_node_main_timer_callback model st).
  repeat split; auto.
Qed.

(** ** The point cloud is cached and never read *)

Lemma pixel_to_pcd_eval_any
    {image : Type} (st : node image) (u v : Z) :
  pixel_to_pcd (u, v) st =
  match depth_image st with
  | None => (Raise TypeError, st, [])
  | Some a =>
      match getitem a v u with
      | Raise e => (Raise e, st, [])
      | Ok d =>
          if invalid_depth d then
            (Ok (nan, nan, d), st, [Print (InvalidDepth u v)])
          else
            (Ok (div64 (mul64 (to_float64 d) (sub64 (of_int u) (cx st)))
                       (fx st),
                 div64 (mul64 (to_float64 d) (sub64 (of_int v) (cy st)))
                       (fy st),
                 d), st, [])
      end
  end.
Proof.
  destruct (depth_image st) as [a |] eqn:Hd.
  - apply (pixel_to_pcd_eval st a Hd).
  - unfold pixel_to_pcd, depth_at, bind, get, lift. rewrite Hd. reflexivity.
Qed.

Lemma bbox_body_eval
    {image : Type} (res : results) (b : bbox) (st : node image) :
  bbox_body res b st =
  match pixel_bounds b with
  | Raise e => (Raise e, st, [])
  | Ok (x0, y0, x1, y1) =>
      match depth_image st with
      | None => (Raise TypeError, st, [])
      | Some a =>
          let line := Print (EstimatedDepth (names res (class_index b))
                                            (box_depth a x0 y0 x1 y1)) in
          match mapM pixel_to_pcd (pixel_list_of x0 y0 x1 y1) st with
          | (Ok pts, st1, t) =>
              (Ok (last pts (nan, nan, nan)), st1,
               line :: t ++ [Print (BoxPoints pts)])
          | (Raise e, st1, t) => (Raise e, st1, line :: t)
          end
      end
  end.
Proof.
  unfold bbox_body, bind, lift, get, emit, ret.
  destruct (pixel_bounds b) as [[[[x0 y0] x1] y1] | e]; [| reflexivity].
  destruct (depth_image st) as [a |]; [| reflexivity].
  destruct (mapM pixel_to_pcd (pixel_list_of x0 y0 x1 y1) st)
    as [[[pts | e] st1] t]; reflexivity.
Qed.

Lemma main_timer_callback_eval
    {image : Type} (model : image -> results) (st : node image) :
  main_timer_callback model st =
  match depth_image st, raw_image st with
  | Some _, Some img =>
      match mapM (bbox_body (model img)) (boxes_data (model img)) st with
      | (Ok _, st1, t) =>
          (Ok tt, st1,
           CallModel :: t ++
             [Imshow; DrawBboxes (boxes_data (model img)); WaitKey])
      | (Raise e, st1, t) => (Raise e, st1, CallModel :: t)
      end
  | _, _ => (Ok tt, st, [Print ImageIsNone])
  end.
Proof.
  unfold main_timer_callback, bind, get, emit.
  destruct (depth_image st) as [a |]; [| reflexivity].
  destruct (raw_image st) as [img |]; [| reflexivity].
  destruct (mapM (bbox_body (model img)) (boxes_data (model img)) st)
    as [[[pcd' | e] st1] t]; reflexivity.
Qed.

Section SameButPcd.

Context {image : Type}.
Variables st st' : node image.
Hypothesis Hsame : same_but_pcd st st'.

Lemma pixel_to_pcd_same_but_pcd (pixel : Z * Z) :
  exists (r : result point3) (t : list event),
    pixel_to_pcd pixel st = (r, st, t) /\
    pixel_to_pcd pixel st' = (r, st', t).
Proof.
  destruct Hsame as (_ & Hd & Hfx & Hfy & Hcx & Hcy).
  destruct pixel as [u v].
  rewrite !pixel_to_pcd_eval_any, Hd, Hfx, Hfy, Hcx, Hcy.
  destruct (depth_image st) as [a |]; [| eauto].
  destruct (getitem a v u) as [d | e]; [| eauto].
  destruct (invalid_depth d); eauto.
Qed.

Lemma mapM_same_but_pcd {A B : Type} (f : A -> M image B) (l : list A) :
  (forall x : A, exists (r : result B) (t : list event),
     f x st = (r, st, t) /\ f x st' = (r, st', t)) ->
  exists (r : result (list B)) (t : list event),
    mapM f l st = (r, st, t) /\ mapM f l st' = (r, st', t).
Proof.
  intros Hf. induction l as [|x l IH].
  - exists (Ok []), []. split; reflexivity.
  - destruct (Hf x) as (r & t & E & E').
    destruct IH as (rs & ts & El & El').
    destruct r as [y | e].
    + rewrite (mapM_cons_ok f x l _ _ _ _ E), El.
      rewrite (mapM_cons_ok f x l _ _ _ _ E'), El'.
      destruct rs; eauto.
    + rewrite (mapM_cons_raise f x l _ _ _ _ E).
      rewrite (mapM_cons_raise f x l _ _ _ _ E'). eauto.
Qed.

Lemma bbox_body_same_but_pcd (res : results) (b : bbox) :
  exists (r : result point3) (t : list event),
    bbox_body res b st = (r, st, t) /\ bbox_body res b st' = (r, st', t).
Proof.
  pose proof Hsame as (_ & Hd & _).
  rewrite !bbox_body_eval, Hd.
  destruct (pixel_bounds b) as [[[[x0 y0] x1] y1] | e]; [| eauto].
  destruct (depth_image st) as [a |]; [| eauto].
  destruct (mapM_same_but_pcd pixel_to_pcd (pixel_list_of x0 y0 x1 y1)
              pixel_to_pcd_same_but_pcd) as (r & t & E & E').
  cbv zeta. rewrite E, E'.
  destruct r as [pts | e]; eauto.
Qed.

Lemma main_timer_callback_same_but_pcd (model : image -> results) :
  exists (r : result unit) (t : list event),
    main_timer_callback model st = (r, st, t) /\
    main_timer_callback model st' = (r, st', t).
Proof.
  pose proof Hsame as (Hr & Hd & _).
  rewrite !main_timer_callback_eval, Hr, Hd.
  destruct (depth_image st) as [a |]; [| eauto].
  destruct (raw_image st) as [img |]; [| eauto].
  destruct (mapM_same_but_pcd (bbox_body (model img)) (boxes_data (model img))
              (bbox_body_same_but_pcd (model img))) as (r & t & E & E').
  rewrite E, E'.
  destruct r as [pcd' | e]; eauto.
Qed.

End SameButPcd.

(** [pcd_callback] never raises and changes nothing but the cached point
    cloud; and the tick does not read that field: after the callback it
    gives the same outcome and the same events as before it. *)
Theorem point_cloud_is_never_read
    {image message : Type} (read_points : message -> result (list point3))
    (Vector3dVector : list point3 -> result (list point3))
    (model : image -> results) (msg : message) (st : node image) :
  exists (st' : node image) (t : list event),
    pcd_callback read_points Vector3dVector msg st = (Ok tt, st', t) /\
    same_but_pcd st st' /\
    (forall e : event, In e t -> exists x : exn, e = LogError x) /\
    exists (r : result unit) (tr : list event),
      main_timer_callback model st = (r, st, tr) /\
      main_timer_callback model st' = (r, st', tr).
Proof.
  assert (H : exists (st' : node image) (t : list event),
             pcd_callback read_points Vector3dVector msg st =
               (Ok tt, st', t) /\
             same_but_pcd st st' /\
             (forall e : event, In e t -> exists x : exn, e = LogError x)).
  { unfold pcd_callback, try_except, bind, lift, get, put, emit.
    destruct (read_points msg) as [pts | e]; cbn.
    - destruct (Vector3dVector pts) as [points | e]; cbn.
      + exists (set_pcd (set_pcd st []) points), []. split; [reflexivity |].
        split; [repeat split |]. intros e [].
      + exists (set_pcd st []), [LogError e]. split; [reflexivity |].
        split; [repeat split |]. intros e' [<- | []]. eauto.
    - exists st, [LogError e]. split; [reflexivity |].
      split; [repeat split |]. intros e' [<- | []]. eauto. }
  destruct H as (st' & t & E & Hs & Ht).
  exists st', t. split; [exact E |]. split; [exact Hs |]. split; [exact Ht |].
  apply main_timer_callback_same_but_pcd. exact Hs.
Qed.

(** ** Whole runs of the node *)

Lemma never_cleared_refl {image : Type} (st : node image) :
  never_cleared st st.
Proof. unfold never_cleared. repeat split; auto. Qed.

Lemma never_cleared_trans {image : Type} (s1 s2 s3 : node image) :
  never_cleared s1 s2 -> never_cleared s2 s3 -> never_cleared s1 s3.
Proof.
  unfold never_cleared.
  intros (A1 & A2 & A3 & A4 & A5 & A6 & A7) (B1 & B2 & B3 & B4 & B5 & B6 & B7).
  repeat split; auto; congruence.
Qed.

Lemma image_callback_raises_typeerror_at
    {image message : Type} (imgmsg_to_cv2_rgb8 : message -> result image)
    (cvtColor : image -> image) (msg : message) (img : image)
    (st : node image) :
  imgmsg_to_cv2_rgb8 msg = Ok img ->
  image_callback imgmsg_to_cv2_rgb8 cvtColor msg st =
    (Raise TypeError, set_raw_image st (cvtColor img), []).
Proof.
  intros Hconv.
  unfold image_callback, try_except, bind, lift, get, put, size_call.
  rewrite Hconv. reflexivity.
Qed.

Section SpinProperties.

Context {image message : Type}.
Variable imgmsg_to_cv2_rgb8 : message -> result image.
Variable imgmsg_to_cv2_32FC1 : message -> result ndarray.
Variable cvtColor : image -> image.
Variable read_points : message -> result (list point3).
Variable Vector3dVector : list point3 -> result (list point3).
Variable model : image -> results.

Let handle' :=
  handle imgmsg_to_cv2_rgb8 imgmsg_to_cv2_32FC1 cvtColor read_points
         Vector3dVector model.
Let spin' :=
  spin imgmsg_to_cv2_rgb8 imgmsg_to_cv2_32FC1 cvtColor read_points
       Vector3dVector model.

Lemma handle_never_clears (i : input message) (st : node image) :
  never_cleared st (snd (fst (handle' i st))).
Proof.
  unfold handle', handle. destruct i as [msg | msg | msg |].
  - unfold image_callback, try_except, bind, lift, get, put, emit, size_call.
    destruct (imgmsg_to_cv2_rgb8 msg) as [img | e]; cbn.
    + unfold never_cleared. cbn. repeat split; auto. discriminate.
    + destruct (is_CvBridgeError e); apply never_cleared_refl.
  - unfold depth_callback, try_except, bind, lift, get, put, emit.
    destruct (imgmsg_to_cv2_32FC1 msg) as [d | e]; cbn.
    + unfold never_cleared. cbn. repeat split; auto. discriminate.
    + destruct (is_CvBridgeError e); apply never_cleared_refl.
  - unfold pcd_callback, try_except, bind, lift, get, put, emit.
    destruct (read_points msg) as [pts | e]; cbn.
    + destruct (Vector3dVector pts) as [points | e]; cbn;
        unfold never_cleared; cbn; repeat split; auto; discriminate.
    + apply never_cleared_refl.
  - rewrite (keeps_node_main_timer_callback model st).
    apply never_cleared_refl.
Qed.

Lemma spin_never_clears (inputs : list (input message)) :
  forall st : node image, never_cleared st (snd (fst (spin' inputs st))).
Proof.
  unfold spin', spin. fold handle'.
  induction inputs as [|i inputs IH]; intros st.
  - apply never_cleared_refl.
  - pose proof (handle_never_clears i st) as H.
    destruct (handle' i st) as [[[u | e] s1] t1] eqn:E; cbn in H.
    + rewrite (mapM_cons_ok handle' i inputs _ _ _ _ E).
      specialize (IH s1).
      destruct (mapM handle' inputs s1) as [[[us | e] s2] t2]; cbn in *;
        exact (never_cleared_trans _ _ _ H IH).
    + rewrite (mapM_cons_raise handle' i inputs _ _ _ _ E). exact H.
Qed.

(** No callback ever clears a cached stream or changes the intrinsics,
    whatever arrives and whether or not the run ends in an exception.  So
    a node that holds both an image and a depth image calls the detector
    on every tick from then on. *)
Theorem cached_streams_are_never_cleared
    (inputs : list (input message)) (st : node image) :
  let st' := snd (fst (spin' inputs st)) in
  never_cleared st st' /\
  (raw_image st <> None -> depth_image st <> None ->
   exists (r : result unit) (t : list event),
     main_timer_callback model st' = (r, st', CallModel :: t)).
Proof.
  intros st'. pose proof (spin_never_clears inputs st) as H. fold st' in H.
  split; [exact H |].
  intros Hr Hd. destruct H as (H1 & H2 & _).
  specialize (H1 Hr). specialize (H2 Hd).
  destruct (raw_image st') as [img |] eqn:Er; [| contradiction].
  destruct (depth_image st') as [a |] eqn:Ed; [| contradiction].
  exact (main_timer_callback_active model st' img a Er Ed).
Qed.

Lemma handle_without_image (i : input message) (st : node image) :
  raw_image st = None ->
  ~ In CallModel (snd (handle' i st)) /\
  (forall u : unit, fst (fst (handle' i st)) = Ok u ->
   raw_image (snd (fst (handle' i st))) = None).
Proof.
  intros Hr. unfold handle', handle. destruct i as [msg | msg | msg |].
  - unfold image_callback, try_except, bind, lift, get, put, emit, size_call.
    destruct (imgmsg_to_cv2_rgb8 msg) as [img | e];
      [| destruct (is_CvBridgeError e)]; cbn;
      (split; [intros H; repeat (destruct H as [H | H]; [discriminate H |]);
               exact H
              | intros u Hu; try discriminate Hu; exact Hr]).
  - unfold depth_callback, try_except, bind, lift, get, put, emit.
    destruct (imgmsg_to_cv2_32FC1 msg) as [d | e];
      [| destruct (is_CvBridgeError e)]; cbn;
      (split; [intros H; repeat (destruct H as [H | H]; [discriminate H |]);
               exact H
              | intros u Hu; try discriminate Hu; exact Hr]).
  - unfold pcd_callback, try_except, bind, lift, get, put, emit.
    destruct (read_points msg) as [pts | e];
      [destruct (Vector3dVector pts) as [points | e] |]; cbn;
      (split; [intros H; repeat (destruct H as [H | H]; [discriminate H |]);
               exact H
              | intros u Hu; try discriminate Hu; exact Hr]).
  - rewrite (main_timer_callback_idle model st (or_introl Hr)). cbn.
    split; [intros [H | []]; discriminate H | intros u _; exact Hr].
Qed.

Lemma spin_without_image (inputs : list (input message)) :
  forall st : node image,
    raw_image st = None ->
    ~ In CallModel (snd (spin' inputs st)) /\
    (forall us : list unit, fst (fst (spin' inputs st)) = Ok us ->
     raw_image (snd (fst (spin' inputs st))) = None).
Proof.
  unfold spin', spin. fold handle'.
  induction inputs as [|i inputs IH]; intros st Hr.
  - cbn. split; auto.
  - destruct (handle_without_image i st Hr) as [Hm Hn].
    destruct (handle' i st) as [[[u | e] s1] t1] eqn:E; cbn in Hm, Hn.
    + rewrite (mapM_cons_ok handle' i inputs _ _ _ _ E).
      destruct (IH s1 (Hn u eq_refl)) as [Hm' Hn'].
      destruct (mapM handle' inputs s1) as [[[us | e] s2] t2]; cbn in *.
      * split; [rewrite in_app_iff; tauto |]. intros us' _. exact (Hn' us eq_refl).
      * split; [rewrite in_app_iff; tauto | discriminate].
    + rewrite (mapM_cons_raise handle' i inputs _ _ _ _ E). cbn.
      split; [exact Hm | discriminate].
Qed.

Lemma spin_ends_at_converted_image
    (inputs : list (input message)) (msg : message) (img : image) :
  In (ImageMsg msg) inputs -> imgmsg_to_cv2_rgb8 msg = Ok img ->
  forall st : node image,
    exists (e : exn) (st' : node image) (t : list event),
      spin' inputs st = (Raise e, st', t).
Proof.
  intros Hin Hconv. unfold spin', spin. fold handle'.
  induction inputs as [|i inputs IH]; intros st; [destruct Hin |].
  destruct (handle' i st) as [[[u | e] s1] t1] eqn:E.
  - destruct Hin as [-> | Hin].
    + unfold handle', handle in E.
      rewrite (image_callback_raises_typeerror_at _ cvtColor _ _ st Hconv) in E.
      discriminate.
    + rewrite (mapM_cons_ok handle' i inputs _ _ _ _ E).
      destruct (IH Hin s1) as (e & st' & t & El). rewrite El. eauto.
  - rewrite (mapM_cons_raise handle' i inputs _ _ _ _ E). eauto.
Qed.

(** From construction on, the detector is never called in any run of the
    node: a run that has not raised holds no image, and a run that
    contains an image message whose conversion succeeds ends in an
    exception. *)
Theorem detector_is_never_called
    (inputs : list (input message)) (fx0 fy0 cx0 cy0 : float) :
  let run := spin' inputs (init_node fx0 fy0 cx0 cy0) in
  ~ In CallModel (snd run) /\
  (forall us : list unit,
     fst (fst run) = Ok us -> raw_image (snd (fst run)) = None) /\
  (forall (msg : message) (img : image),
     In (ImageMsg msg) inputs -> imgmsg_to_cv2_rgb8 msg = Ok img ->
     exists e : exn, fst (fst run) = Raise e).
Proof.
  intros run.
  destruct (spin_without_image inputs (init_node fx0 fy0 cx0 cy0) eq_refl)
    as [Hm Hn].
  split; [exact Hm |]. split; [exact Hn |].
  intros msg img Hin Hconv.
  destruct (spin_ends_at_converted_image inputs msg img Hin Hconv
              (init_node fx0 fy0 cx0 cy0)) as (e & st' & t & E).
  exists e. unfold run. rewrite E. reflexivity.
Qed.

End SpinProperties.

(** ** Corners off the image and boxes that cannot be converted *)

Lemma indexable_false_iff (a : ndarray) (u v : Z) :
  indexable a (u, v) = false <->
  (u < - width a \/ width a <= u \/ v < - height a \/ height a <= v).
Proof.
  unfold indexable.
  rewrite !andb_false_iff, !Z.leb_gt, !Z.ltb_ge. tauto.
Qed.

(** A pixel outside [[-width, width) x [-height, height)] makes
    [pixel_to_pcd] raise [IndexError] without printing anything; inside
    that range a negative coordinate reads the cell counted from the
    opposite edge.  In particular [u = width], which a slice accepts as a
    bound, is not a valid column. *)
Theorem pixel_off_the_image_raises_IndexError
    {image : Type} (st : node image) (a : ndarray) (u v : Z)
    (Hdepth : depth_image st = Some a) :
  ((u < - width a \/ width a <= u \/ v < - height a \/ height a <= v) ->
   pixel_to_pcd (u, v) st = (Raise IndexError, st, [])) /\
  (- width a <= u < 0 -> - height a <= v < 0 ->
   exists (p : point3) (t : list event),
     pixel_to_pcd (u, v) st = (Ok p, st, t) /\
     pZ p = cell a (Z.to_nat (v + height a)) (Z.to_nat (u + width a))) /\
  pixel_to_pcd (width a, v) st = (Raise IndexError, st, []).
Proof.
  assert (Hout : (u < - width a \/ width a <= u \/
                  v < - height a \/ height a <= v) ->
                 pixel_to_pcd (u, v) st = (Raise IndexError, st, [])).
  { intros H. apply indexable_false_iff in H.
    rewrite (pixel_to_pcd_eval st a Hdepth), (getitem_not_indexable _ _ _ H).
    reflexivity. }
  split; [exact Hout |]. split.
  - intros Hu Hv.
    assert (Hi : indexable a (u, v) = true).
    { unfold indexable. rewrite !andb_true_iff, !Z.leb_le, !Z.ltb_lt. lia. }
    destruct (pixel_to_pcd_indexable st a Hdepth u v Hi) as (p & t & E & Hz & _).
    exists p, t. split; [exact E |]. rewrite Hz. unfold cell_at, wrap.
    destruct (Z.ltb_spec v 0); destruct (Z.ltb_spec u 0); try lia.
    reflexivity.
  - assert (H : indexable a (width a, v) = false).
    { apply indexable_false_iff. lia. }
    rewrite (pixel_to_pcd_eval st a Hdepth), (getitem_not_indexable _ _ _ H).
    reflexivity.
Qed.

Lemma pixel_off_the_image_raises_IndexError_witness :
  pixel_to_pcd (3, 0) (Sample.node_with Sample.depth3) =
    (Raise IndexError, Sample.node_with Sample.depth3, []).
Proof.
  exact (proj2 (proj2 (pixel_off_the_image_raises_IndexError
                         (Sample.node_with Sample.depth3) Sample.depth3 0 0
                         eq_refl))).
Defined.

Lemma py_int_isfinite (x : float) :
  (isfinite x = true -> exists n : Z, py_int x = Ok n) /\
  (isfinite x = false ->
   exists e : exn, py_int x = Raise e /\ (e = ValueError \/ e = OverflowError)).
Proof.
  destruct x as [s | s | | s m e]; cbn; split; intros H;
    try discriminate; eauto.
Qed.

Lemma pixel_bounds_finite (b : bbox) :
  (finite_bounds b = true ->
   exists x0 y0 x1 y1 : Z, pixel_bounds b = Ok (x0, y0, x1, y1)) /\
  (finite_bounds b = false ->
   exists e : exn,
     pixel_bounds b = Raise e /\ (e = ValueError \/ e = OverflowError)).
Proof.
  unfold finite_bounds, pixel_bounds.
  destruct (py_int_isfinite (x_min b)) as [A1 A2].
  destruct (py_int_isfinite (x_max b)) as [B1 B2].
  destruct (py_int_isfinite (y_min b)) as [C1 C2].
  destruct (py_int_isfinite (y_max b)) as [D1 D2].
  destruct (isfinite (x_min b)).
  - destruct (A1 eq_refl) as [x0 ->].
    destruct (isfinite (x_max b)).
    + destruct (B1 eq_refl) as [x1 ->].
      destruct (isfinite (y_min b)).
      * destruct (C1 eq_refl) as [y0 ->].
        destruct (isfinite (y_max b)).
        -- destruct (D1 eq_refl) as [y1 ->]. split; [eauto | discriminate].
        -- destruct (D2 eq_refl) as (e & -> & He).
           split; [discriminate | eauto].
      * destruct (C2 eq_refl) as (e & -> & He).
        split; [discriminate | eauto].
    + destruct (B2 eq_refl) as (e & -> & He). split; [discriminate | eauto].
  - destruct (A2 eq_refl) as (e & -> & He). split; [discriminate | eauto].
Qed.

Section LoopStops.

Context {image : Type}.
Variable st : node image.
Variable a : ndarray.
Hypothesis Hdepth : depth_image st = Some a.

Lemma corner_points_stop (pixels : list (Z * Z)) :
  forallb (indexable a) pixels = false ->
  exists t : list event,
    mapM pixel_to_pcd pixels st = (Raise IndexError, st, t) /\
    forallb is_invalid_depth_line t = true.
Proof.
  induction pixels as [|[u v] pixels IH]; intros H; [discriminate |].
  cbn [forallb] in H.
  destruct (indexable a (u, v)) eqn:Hi.
  - destruct (pixel_to_pcd_indexable st a Hdepth u v Hi)
      as (p & t1 & Ep & _ & Ht1).
    destruct (IH H) as (t2 & E2 & Ht2).
    rewrite (mapM_cons_ok pixel_to_pcd _ _ _ _ _ _ Ep), E2.
    exists (t1 ++ t2). split; [reflexivity |].
    rewrite forallb_app, Ht1, Ht2. reflexivity.
  - exists []. split; [| reflexivity].
    apply mapM_cons_raise.
    rewrite (pixel_to_pcd_eval st a Hdepth), (getitem_not_indexable _ _ _ Hi).
    reflexivity.
Qed.

Lemma invalid_depth_lines_are_prints (t : list event) :
  forallb is_invalid_depth_line t = true -> forallb is_print t = true.
Proof.
  induction t as [|e t IH]; cbn; [reflexivity |].
  intros H. apply andb_prop in H. destruct H as [He Ht].
  rewrite (IH Ht). destruct e as [[| | |]| | | | |]; try discriminate.
  reflexivity.
Qed.

Lemma prints_only_bbox_body (res : results) (b : bbox) :
  prints_only (image := image) (bbox_body res b).
Proof.
  intros s. rewrite bbox_body_eval.
  destruct (pixel_bounds b) as [[[[x0 y0] x1] y1] | e]; [| reflexivity].
  destruct (depth_image s) as [a' |]; [| reflexivity].
  assert (P : prints_only (image := image)
                (mapM pixel_to_pcd (pixel_list_of x0 y0 x1 y1))).
  { apply prints_only_mapM. intros [u v] s'.
    rewrite pixel_to_pcd_eval_any.
    destruct (depth_image s') as [a'' |]; [| reflexivity].
    destruct (getitem a'' v u) as [d | e]; [| reflexivity].
    destruct (invalid_depth d); reflexivity. }
  specialize (P s). cbv zeta.
  destruct (mapM pixel_to_pcd (pixel_list_of x0 y0 x1 y1) s)
    as [[[pts | e] s1] t]; cbn in *.
  - rewrite forallb_app, P. reflexivity.
  - exact P.
Qed.

(** The loop on a list whose first [length prefix] boxes are fine and
    whose next box makes the body raise. *)
Lemma fusion_loop_stops (res : results) (prefix rest : list bbox) (b : bbox)
    (e : exn) (tb : list event) :
  forallb (corners_indexable a) prefix = true ->
  bbox_body res b st = (Raise e, st, tb) ->
  exists t1 : list event,
    mapM (bbox_body res) (prefix ++ b :: rest) st = (Raise e, st, t1 ++ tb) /\
    forallb is_print (t1 ++ tb) = true /\
    estimates t1 =
      map (fun b => (names res (class_index b), reported_depth a b)) prefix /\
    length (box_points t1) = length prefix.
Proof.
  intros Hp Hb.
  destruct (fusion_loop_run st a Hdepth res prefix Hp)
    as (pcd1 & t1 & E1 & _ & Hest & Hbp & _).
  exists t1.
  assert (E : mapM (bbox_body res) (prefix ++ b :: rest) st =
              (Raise e, st, t1 ++ tb)).
  { apply (mapM_app_raise (bbox_body res) prefix (b :: rest) st st st pcd1);
      [exact E1 |].
    apply mapM_cons_raise. exact Hb. }
  split; [exact E |]. split; [| auto].
  pose proof (prints_only_mapM (bbox_body res) (prefix ++ b :: rest)
                (prints_only_bbox_body res) st) as P.
  rewrite E in P. exact P.
Qed.

End LoopStops.

(** A tick stops at the first detection with a corner off the depth image
    (the boxes before it being fine): it raises [IndexError] after the
    depth line of that detection, reports corner points only for the
    detections before it, skips the remaining detections and never
    reaches the display calls. *)
Theorem tick_stops_at_first_box_off_the_image
    {image : Type} (model : image -> results) (st : node image)
    (img : image) (a : ndarray) (prefix rest : list bbox) (b : bbox)
    (x0 y0 x1 y1 : Z)
    (Himg : raw_image st = Some img)
    (Hdepth : depth_image st = Some a)
    (Hboxes : boxes_data (model img) = prefix ++ b :: rest)
    (Hprefix : forallb (corners_indexable a) prefix = true)
    (Hbounds : pixel_bounds b = Ok (x0, y0, x1, y1))
    (Hoff : forallb (indexable a) (pixel_list_of x0 y0 x1 y1) = false) :
  exists t : list event,
    main_timer_callback model st = (Raise IndexError, st, CallModel :: t) /\
    forallb is_print t = true /\
    estimates t =
      map (fun b => (names (model img) (class_index b), reported_depth a b))
          (prefix ++ [b]) /\
    length (box_points t) = length prefix.
Proof.
  destruct (corner_points_stop st a Hdepth _ Hoff) as (tc & Ec & Htc).
  assert (Eb : bbox_body (model img) b st =
               (Raise IndexError, st,
                Print (EstimatedDepth (names (model img) (class_index b))
                                      (box_depth a x0 y0 x1 y1)) :: tc)).
  { rewrite bbox_body_eval, Hbounds, Hdepth. cbv zeta. rewrite Ec.
    reflexivity. }
  destruct (fusion_loop_stops st a Hdepth (model img) prefix rest b _ _
              Hprefix Eb) as (t1 & E & Hp & Hest & Hbp).
  destruct (invalid_depth_lines_carry_no_estimate tc Htc) as [He Hb].
  eexists. rewrite main_timer_callback_eval, Hdepth, Himg, Hboxes, E.
  split; [reflexivity |]. split; [exact Hp |].
  assert (Hrd : reported_depth a b = box_depth a x0 y0 x1 y1).
  { unfold reported_depth. rewrite Hbounds. reflexivity. }
  rewrite estimates_app, box_points_app, map_app, length_app, Hest, Hbp.
  cbn [map estimates box_points]. rewrite He, Hb, Hrd.
  split; [reflexivity | cbn; lia].
Qed.

Lemma tick_stops_at_first_box_off_the_image_witness :
  exists t : list event,
    main_timer_callback
      (Scenario.detector [Sample.box 0 0 2 2 9; Sample.box 1 1 3 3 9;
                          Sample.box 0 0 1 1 9])
      (Sample.node_with Sample.depth3) =
      (Raise IndexError, Sample.node_with Sample.depth3, CallModel :: t) /\
    forallb is_print t = true /\
    estimates t =
      map (fun b => (names (Sample.detections []) (class_index b),
                     reported_depth Sample.depth3 b))
          ([Sample.box 0 0 2 2 9] ++ [Sample.box 1 1 3 3 9]) /\
    length (box_points t) = 1%nat.
Proof.
  exact (tick_stops_at_first_box_off_the_image
           (Scenario.detector [Sample.box 0 0 2 2 9; Sample.box 1 1 3 3 9;
                               Sample.box 0 0 1 1 9])
           (Sample.node_with Sample.depth3) tt Sample.depth3
           [Sample.box 0 0 2 2 9] [Sample.box 0 0 1 1 9]
           (Sample.box 1 1 3 3 9) 1 1 3 3
           eq_refl eq_refl eq_refl eq_refl eq_refl eq_refl).
Defined.

(** A tick stops at the first detection with a NaN or infinite coordinate
    (the boxes before it being fine): [int] raises [ValueError] or
    [OverflowError], nothing at all is printed for that detection, and
    the display calls are not reached. *)
Theorem tick_stops_at_first_box_with_nonfinite_edge
    {image : Type} (model : image -> results) (st : node image)
    (img : image) (a : ndarray) (prefix rest : list bbox) (b : bbox)
    (Himg : raw_image st = Some img)
    (Hdepth : depth_image st = Some a)
    (Hboxes : boxes_data (model img) = prefix ++ b :: rest)
    (Hprefix : forallb (corners_indexable a) prefix = true)
    (Hb : finite_bounds b = false) :
  exists (e : exn) (t : list event),
    (e = ValueError \/ e = OverflowError) /\
    main_timer_callback model st = (Raise e, st, CallModel :: t) /\
    forallb is_print t = true /\
    estimates t =
      map (fun b => (names (model img) (class_index b), reported_depth a b))
          prefix /\
    length (box_points t) = length prefix.
Proof.
  destruct (proj2 (pixel_bounds_finite b) Hb) as (e & Eb & He).
  assert (Ebody : bbox_body (model img) b st = (Raise e, st, [])).
  { rewrite bbox_body_eval, Eb. reflexivity. }
  destruct (fusion_loop_stops st a Hdepth (model img) prefix rest b _ _
              Hprefix Ebody) as (t1 & E & Hp & Hest & Hbp).
  rewrite app_nil_r in E, Hp.
  exists e, t1. split; [exact He |].
  rewrite main_timer_callback_eval, Hdepth, Himg, Hboxes, E. auto.
Qed.

Lemma tick_stops_at_first_box_with_nonfinite_edge_witness :
  exists (e : exn) (t : list event),
    (e = ValueError \/ e = OverflowError) /\
    main_timer_callback
      (Scenario.detector [Sample.box 0 0 2 2 9; Scenario.nan_box])
      (Sample.node_with Sample.depth3) =
      (Raise e, Sample.node_with Sample.depth3, CallModel :: t) /\
    forallb is_print t = true /\
    estimates t =
      map (fun b => (names (Sample.detections []) (class_index b),
                     reported_depth Sample.depth3 b))
          [Sample.box 0 0 2 2 9] /\
    length (box_points t) = 1%nat.
Proof.
  exact (tick_stops_at_first_box_with_nonfinite_edge
           (Scenario.detector [Sample.box 0 0 2 2 9; Scenario.nan_box])
           (Sample.node_with Sample.depth3) tt Sample.depth3
           [Sample.box 0 0 2 2 9] [] Scenario.nan_box
           eq_refl eq_refl eq_refl eq_refl eq_refl).
Defined.

(** ** What one iteration prints and keeps *)

Section CornerPoints.

Context {image : Type}.
Variable st : node image.
Variable a : ndarray.
Hypothesis Hdepth : depth_image st = Some a.

Lemma pixel_to_pcd_exact (pixel : Z * Z) :
  indexable a pixel = true ->
  exists p : point3,
    pixel_to_pcd pixel st = (Ok p, st, invalid_depth_lines a [pixel]) /\
    pZ p = cell_at a pixel /\
    (is_positive_finite (cell_at a pixel) = false ->
     p = (nan, nan, cell_at a pixel)).
Proof.
  destruct pixel as [u v]. intros Hi.
  rewrite (pixel_to_pcd_eval st a Hdepth), (getitem_indexable _ _ _ Hi).
  unfold invalid_depth_lines. cbn [flat_map fst snd].
  rewrite invalid_depth_spec.
  destruct (is_positive_finite (cell_at a (u, v))); cbn [negb app];
    eexists; (split; [reflexivity | split; [reflexivity |]]).
  - discriminate.
  - reflexivity.
Qed.

Lemma corner_points_exact (pixels : list (Z * Z)) :
  forallb (indexable a) pixels = true ->
  exists pts : list point3,
    mapM pixel_to_pcd pixels st = (Ok pts, st, invalid_depth_lines a pixels) /\
    Forall2
      (fun pixel p =>
         pixel_to_pcd pixel st = (Ok p, st, invalid_depth_lines a [pixel]) /\
         (is_positive_finite (cell_at a pixel) = false ->
          p = (nan, nan, cell_at a pixel)))
      pixels pts.
Proof.
  induction pixels as [|pixel pixels IH]; intros H.
  - exists []. split; [reflexivity | constructor].
  - cbn [forallb] in H. apply andb_prop in H. destruct H as [Hi Hrest].
    destruct (pixel_to_pcd_exact pixel Hi) as (p & Ep & _ & Hn).
    destruct (IH Hrest) as (pts & Epts & Hall).
    exists (p :: pts).
    rewrite (mapM_cons_ok pixel_to_pcd _ _ _ _ _ _ Ep), Epts.
    split.
    + unfold invalid_depth_lines. cbn [flat_map]. rewrite app_nil_r.
      reflexivity.
    + constructor; auto.
Qed.

End CornerPoints.

(** The lines of one iteration, for a box with finite coordinates and
    indexable corners: the depth line, then one invalid-depth line for
    each corner whose depth cell is not finite and positive, naming that
    pixel, in corner order, then the points line; and each such corner's
    point is [(NaN, NaN, cell)]. *)
Theorem one_line_per_invalid_corner
    {image : Type} (st : node image) (a : ndarray) (res : results)
    (b : bbox) (x0 y0 x1 y1 : Z)
    (Hdepth : depth_image st = Some a)
    (Hbounds : pixel_bounds b = Ok (x0, y0, x1, y1))
    (Hidx : forallb (indexable a) (pixel_list_of x0 y0 x1 y1) = true) :
  exists pts : list point3,
    bbox_body res b st =
      (Ok (last pts (nan, nan, nan)), st,
       Print (EstimatedDepth (names res (class_index b))
                             (box_depth a x0 y0 x1 y1))
         :: invalid_depth_lines a (pixel_list_of x0 y0 x1 y1)
         ++ [Print (BoxPoints pts)]) /\
    Forall2
      (fun pixel p =>
         is_positive_finite (cell_at a pixel) = false ->
         p = (nan, nan, cell_at a pixel))
      (pixel_list_of x0 y0 x1 y1) pts /\
    (length (invalid_depth_lines a (pixel_list_of x0 y0 x1 y1)) <= 4)%nat.
Proof.
  destruct (corner_points_exact st a Hdepth _ Hidx) as (pts & E & Hall).
  exists pts. split; [| split].
  - rewrite bbox_body_eval, Hbounds, Hdepth. cbv zeta. rewrite E.
    reflexivity.
  - revert Hall. apply Forall2_impl. intros pixel p [_ H]. exact H.
  - unfold invalid_depth_lines, pixel_list_of. cbn [flat_map].
    rewrite !length_app.
    repeat match goal with
           | |- context [if ?c then _ else _] => destruct c
           end; cbn; lia.
Qed.

Lemma one_line_per_invalid_corner_witness :
  exists pts : list point3,
    bbox_body (Sample.detections []) (Sample.box 0 0 1 0 9)
              (Sample.node_with Sample.mixed_row) =
      (Ok (last pts (nan, nan, nan)), Sample.node_with Sample.mixed_row,
       Print (EstimatedDepth "person" (box_depth Sample.mixed_row 0 0 1 0))
         :: invalid_depth_lines Sample.mixed_row (pixel_list_of 0 0 1 0)
         ++ [Print (BoxPoints pts)]) /\
    Forall2
      (fun pixel p =>
         is_positive_finite (cell_at Sample.mixed_row pixel) = false ->
         p = (nan, nan, cell_at Sample.mixed_row pixel))
      (pixel_list_of 0 0 1 0) pts /\
    (length (invalid_depth_lines Sample.mixed_row (pixel_list_of 0 0 1 0))
     <= 4)%nat.
Proof.
  exact (one_line_per_invalid_corner
           (Sample.node_with Sample.mixed_row) Sample.mixed_row
           (Sample.detections []) (Sample.box 0 0 1 0 9) 0 0 1 0
           eq_refl eq_refl eq_refl).
Defined.

(** What the loop collects in [bboxes_pcd]: for each detection, in order,
    only the point of its last corner [(x_max, y_max)], exactly as
    [pixel_to_pcd] returns it for that pixel. *)
Theorem bboxes_pcd_keeps_the_last_corner
    {image : Type} (st : node image) (a : ndarray) (res : results)
    (bboxes : list bbox)
    (Hdepth : depth_image st = Some a)
    (Hidx : forallb (corners_indexable a) bboxes = true) :
  exists (bboxes_pcd : list point3) (t : list event),
    mapM (bbox_body res) bboxes st = (Ok bboxes_pcd, st, t) /\
    Forall2
      (fun b p =>
         exists (x0 y0 x1 y1 : Z) (t' : list event),
           pixel_bounds b = Ok (x0, y0, x1, y1) /\
           pixel_to_pcd (x1, y1) st = (Ok p, st, t') /\
           pZ p = cell_at a (x1, y1))
      bboxes bboxes_pcd.
Proof.
  induction bboxes as [|b bboxes IH].
  - exists [], []. split; [reflexivity | constructor].
  - cbn [forallb] in Hidx. apply andb_prop in Hidx.
    destruct Hidx as [Hb Hrest].
    destruct (IH Hrest) as (pcd' & t2 & E2 & Hall).
    unfold corners_indexable in Hb.
    destruct (pixel_bounds b) as [[[[x0 y0] x1] y1] | e] eqn:Eb;
      [| discriminate].
    destruct (corner_points_exact st a Hdepth _ Hb) as (pts & E & Hpts).
    unfold pixel_list_of in Hpts.
    inversion Hpts as [| ? p1 ? l1 _ H1]; subst.
    inversion H1 as [| ? p2 ? l2 _ H2]; subst.
    inversion H2 as [| ? p3 ? l3 _ H3]; subst.
    inversion H3 as [| ? p4 ? l4 [E4 _] H4]; subst.
    inversion H4; subst.
    assert (Ebody : exists tb, bbox_body res b st = (Ok p4, st, tb)).
    { rewrite bbox_body_eval, Eb, Hdepth. cbv zeta. rewrite E. eauto. }
    destruct Ebody as (tb & Ebody).
    exists (p4 :: pcd'), (tb ++ t2).
    rewrite (mapM_cons_ok (bbox_body res) _ _ _ _ _ _ Ebody), E2.
    split; [reflexivity |].
    constructor; [| exact Hall].
    exists x0, y0, x1, y1, (invalid_depth_lines a [(x1, y1)]).
    split; [exact Eb |]. split; [exact E4 |].
    assert (Hi : indexable a (x1, y1) = true).
    { cbn [pixel_list_of forallb] in Hb.
      rewrite !andb_true_iff in Hb. tauto. }
    destruct (pixel_to_pcd_exact st a Hdepth (x1, y1) Hi) as (p & Ep & Hz & _).
    rewrite E4 in Ep. inversion Ep; subst. exact Hz.
Qed.

Lemma bboxes_pcd_keeps_the_last_corner_witness :
  exists (bboxes_pcd : list point3) (t : list event),
    mapM (bbox_body (Sample.detections []))
         [Sample.box 0 0 2 2 9; Sample.box 0 0 2 0 9]
         (Sample.node_with Sample.depth3) =
      (Ok bboxes_pcd, Sample.node_with Sample.depth3, t) /\
    Forall2
      (fun b p =>
         exists (x0 y0 x1 y1 : Z) (t' : list event),
           pixel_bounds b = Ok (x0, y0, x1, y1) /\
           pixel_to_pcd (x1, y1) (Sample.node_with Sample.depth3) =
             (Ok p, Sample.node_with Sample.depth3, t') /\
           pZ p = cell_at Sample.depth3 (x1, y1))
      [Sample.box 0 0 2 2 9; Sample.box 0 0 2 0 9] bboxes_pcd.
Proof.
  exact (bboxes_pcd_keeps_the_last_corner
           (Sample.node_with Sample.depth3) Sample.depth3
           (Sample.detections [])
           [Sample.box 0 0 2 2 9; Sample.box 0 0 2 0 9]
           eq_refl eq_refl).
Defined.

(** ** Boxes against the edges of the depth image *)

Lemma adjust_min (n i : Z) : 0 <= n -> 0 <= i -> adjust n (Z.min i n) = adjust n i.
Proof.
  intros Hn Hi. unfold adjust.
  destruct (Z.ltb_spec (Z.min i n) 0); destruct (Z.ltb_spec i 0); lia.
Qed.

(** A box that reaches past the right or bottom edge is averaged over the
    part that lies on the image: its mean depth is that of the box cut
    off at [width] and [height]. *)
Theorem box_past_the_edge_is_cut_off
    (a : ndarray) (x_min y_min x_max y_max : Z)
    (Hx : 0 <= x_max) (Hy : 0 <= y_max) :
  slice_cells a y_min y_max x_min x_max =
    slice_cells a y_min (Z.min y_max (height a)) x_min (Z.min x_max (width a)) /\
  box_depth a x_min y_min x_max y_max =
    box_depth a x_min y_min (Z.min x_max (width a)) (Z.min y_max (height a)).
Proof.
  assert (E : slice_cells a y_min y_max x_min x_max =
              slice_cells a y_min (Z.min y_max (height a))
                          x_min (Z.min x_max (width a))).
  { unfold slice_cells, slice_range.
    rewrite (adjust_min _ _ (height_nonneg a) Hy).
    rewrite (adjust_min _ _ (width_nonneg a) Hx). reflexivity. }
  split; [exact E |].
  rewrite !box_depth_cells, E. reflexivity.
Qed.

Lemma box_past_the_edge_is_cut_off_witness :
  slice_cells Sample.depth3 1 7 1 9 =
    slice_cells Sample.depth3 1 (Z.min 7 (height Sample.depth3))
                1 (Z.min 9 (width Sample.depth3)) /\
  box_depth Sample.depth3 1 1 9 7 =
    box_depth Sample.depth3 1 1 (Z.min 9 (width Sample.depth3))
              (Z.min 7 (height Sample.depth3)).
Proof.
  apply (box_past_the_edge_is_cut_off Sample.depth3 1 1 9 7); lia.
Defined.




(** ** [draw_bboxes] *)

Section DrawBboxes.

Variable getTextSize : string * float -> Z * Z.
Variable res : results.

Lemma draw_label_ok (b : bbox) :
  isfinite (x_min b) && isfinite (y_min b) = true ->
  exists x y : Z,
    py_int (x_min b) = Ok x /\ py_int (y_min b) = Ok y /\
    draw_label getTextSize res b =
      Ok [Rectangle
            (x, y - 10 - snd (getTextSize (names res (class_index b),
                                           confidence b)))
            (x + fst (getTextSize (names res (class_index b), confidence b)),
             y - 10);
          PutText (names res (class_index b), confidence b) (x, y - 10)].
Proof.
  intros H. apply andb_prop in H. destruct H as [Hx Hy].
  destruct (proj1 (py_int_isfinite _) Hx) as [x Ex].
  destruct (proj1 (py_int_isfinite _) Hy) as [y Ey].
  exists x, y. unfold draw_label. rewrite Ex, Ey. auto.
Qed.

Lemma draw_label_raises (b : bbox) :
  isfinite (x_min b) && isfinite (y_min b) = false ->
  exists e : exn,
    draw_label getTextSize res b = Raise e /\
    (e = ValueError \/ e = OverflowError).
Proof.
  intros H. unfold draw_label.
  destruct (isfinite (x_min b)) eqn:Hx.
  - destruct (proj1 (py_int_isfinite _) Hx) as [x ->].
    destruct (proj2 (py_int_isfinite (y_min b)) H) as (e & -> & He). eauto.
  - destruct (proj2 (py_int_isfinite _) Hx) as (e & -> & He). eauto.
Qed.

Lemma label_drawable_finite (b : bbox) :
  label_drawable getTextSize res b = true ->
  isfinite (x_min b) && isfinite (y_min b) = true.
Proof.
  unfold label_drawable.
  destruct (isfinite (x_min b)) eqn:Hx.
  - destruct (isfinite (y_min b)) eqn:Hy; [reflexivity |].
    destruct (proj2 (py_int_isfinite _) Hy) as (e & -> & _).
    destruct (py_int (x_min b)); discriminate.
  - destruct (proj2 (py_int_isfinite _) Hx) as (e & -> & _). discriminate.
Qed.

Lemma draw_bboxes_runs (bboxes : list bbox) :
  forallb (fun b => isfinite (x_min b) && isfinite (y_min b)) bboxes = true ->
  exists ds : list drawing,
    draw_bboxes getTextSize res bboxes = (ds, Ok tt) /\
    length ds = (2 * length bboxes)%nat /\
    drawn_labels ds =
      map (fun b => (names res (class_index b), confidence b)) bboxes /\
    (forall pt1 pt2 : Z * Z,
       In (Rectangle pt1 pt2) ds ->
       exists (b : bbox) (x y : Z),
         In b bboxes /\
         py_int (x_min b) = Ok x /\ py_int (y_min b) = Ok y /\
         In (PutText (names res (class_index b), confidence b) (x, y - 10)) ds /\
         pt1 = (x, y - 10 - snd (getTextSize (names res (class_index b),
                                              confidence b))) /\
         pt2 = (x + fst (getTextSize (names res (class_index b),
                                      confidence b)), y - 10)).
Proof.
  induction bboxes as [|b bboxes IH]; intros Hfin.
  - exists []. cbn. repeat split. intros ? ? [].
  - cbn [forallb] in Hfin. apply andb_prop in Hfin.
    destruct Hfin as [Hb Hrest].
    destruct (IH Hrest) as (ds & E & Hlen & Hlab & Hrect).
    destruct (draw_label_ok b Hb) as (x & y & Ex & Ey & El).
    eexists. cbn [draw_bboxes]. rewrite El, E.
    split; [reflexivity |].
    split; [cbn; rewrite Hlen; lia |].
    split; [cbn; rewrite Hlab; reflexivity |].
    intros pt1 pt2 Hin. cbn in Hin.
    destruct Hin as [Hin | [Hin | Hin]].
    + inversion Hin; subst. exists b, x, y. cbn. auto 10.
    + discriminate Hin.
    + destruct (Hrect pt1 pt2 Hin) as (b' & x' & y' & Hb' & A & B & C & D).
      exists b', x', y'. cbn. auto 10.
Qed.

Lemma drawable_rows_are_finite (bboxes : list bbox) :
  forallb (label_drawable getTextSize res) bboxes = true ->
  forallb (fun b => isfinite (x_min b) && isfinite (y_min b)) bboxes = true.
Proof.
  induction bboxes as [|b bboxes IH]; cbn; [reflexivity |].
  intros H. apply andb_prop in H. destruct H as [Hb Hrest].
  rewrite (label_drawable_finite b Hb), (IH Hrest). reflexivity.
Qed.

(** On rows whose [x_min] and [y_min] are finite and whose label
    rectangle has corners that fit a C [int], [draw_bboxes] completes and
    makes two drawings per row, in row order: a filled rectangle whose
    bottom-left corner is 10 pixels above the box's top-left corner and
    whose size is that of the label, and on it the label carrying the
    class name and the confidence of that row; every coordinate drawn
    fits a C [int]. *)
Theorem draw_bboxes_labels_every_box (bboxes : list bbox)
    (Hdraw : forallb (label_drawable getTextSize res) bboxes = true) :
  exists ds : list drawing,
    draw_bboxes getTextSize res bboxes = (ds, Ok tt) /\
    length ds = (2 * length bboxes)%nat /\
    drawn_labels ds =
      map (fun b => (names res (class_index b), confidence b)) bboxes /\
    (forall pt1 pt2 : Z * Z,
       In (Rectangle pt1 pt2) ds ->
       fits_int (fst pt1) && fits_int (snd pt1) &&
       fits_int (fst pt2) && fits_int (snd pt2) = true /\
       exists (b : bbox) (x y : Z),
         In b bboxes /\
         py_int (x_min b) = Ok x /\ py_int (y_min b) = Ok y /\
         In (PutText (names res (class_index b), confidence b) (x, y - 10)) ds /\
         pt1 = (x, y - 10 - snd (getTextSize (names res (class_index b),
                                              confidence b))) /\
         pt2 = (x + fst (getTextSize (names res (class_index b),
                                      confidence b)), y - 10)).
Proof.
  destruct (draw_bboxes_runs bboxes (drawable_rows_are_finite bboxes Hdraw))
    as (ds & E & Hlen & Hlab & Hrect).
  exists ds. split; [exact E |]. split; [exact Hlen |].
  split; [exact Hlab |].
  intros pt1 pt2 Hin.
  destruct (Hrect pt1 pt2 Hin) as (b & x & y & Hb & Ex & Ey & Ht & -> & ->).
  split; [| exists b, x, y; auto 10].
  rewrite forallb_forall in Hdraw. specialize (Hdraw b Hb).
  unfold label_drawable in Hdraw. rewrite Ex, Ey in Hdraw.
  cbn [fst snd]. exact Hdraw.
Qed.

(** [draw_bboxes] does not look at [x_max] or [y_max]: rows that agree on
    the other four entries give the same drawings, so the rectangle of
    the detection itself is never drawn. *)
Theorem draw_bboxes_ignores_far_corner (bboxes bboxes' : list bbox)
    (Hsame : Forall2 same_near_corner bboxes bboxes') :
  draw_bboxes getTextSize res bboxes' = draw_bboxes getTextSize res bboxes.
Proof.
  induction Hsame as [|b b' l l' (Hx & Hy & Hc & Hi) _ IH].
  - reflexivity.
  - cbn [draw_bboxes]. unfold draw_label. rewrite Hx, Hy, Hc, Hi, IH.
    reflexivity.
Qed.

Lemma draw_bboxes_stops (prefix rest : list bbox) (b : bbox) :
  forallb (fun b => isfinite (x_min b) && isfinite (y_min b)) prefix = true ->
  isfinite (x_min b) && isfinite (y_min b) = false ->
  exists (ds : list drawing) (e : exn),
    draw_bboxes getTextSize res (prefix ++ b :: rest) = (ds, Raise e) /\
    (e = ValueError \/ e = OverflowError) /\
    draw_bboxes getTextSize res prefix = (ds, Ok tt) /\
    length ds = (2 * length prefix)%nat.
Proof.
  intros Hprefix Hb.
  destruct (draw_label_raises b Hb) as (e & Eb & He).
  induction prefix as [|b0 prefix IH].
  - exists [], e. cbn. rewrite Eb. auto.
  - cbn [forallb] in Hprefix. apply andb_prop in Hprefix.
    destruct Hprefix as [Hb0 Hrest].
    destruct (IH Hrest) as (ds & e' & E & He' & Ep & Hlen).
    destruct (draw_label_ok b0 Hb0) as (x & y & _ & _ & El).
    eexists. exists e'. cbn [app draw_bboxes]. rewrite El, E, Ep.
    split; [reflexivity |]. split; [exact He' |].
    split; [reflexivity |]. cbn. rewrite Hlen. lia.
Qed.

(** When the rows before it have labels that can be drawn (finite
    [x_min] and [y_min], rectangle corners that fit a C [int]), the first
    row whose [x_min] or [y_min] is NaN or infinite makes [draw_bboxes]
    raise [ValueError] or [OverflowError]; the labels of the rows before
    it have been drawn, nothing of that row or of the rows after it. *)
Theorem draw_bboxes_stops_at_nonfinite_corner
    (prefix rest : list bbox) (b : bbox)
    (Hprefix : forallb (label_drawable getTextSize res) prefix = true)
    (Hb : isfinite (x_min b) && isfinite (y_min b) = false) :
  exists (ds : list drawing) (e : exn),
    draw_bboxes getTextSize res (prefix ++ b :: rest) = (ds, Raise e) /\
    (e = ValueError \/ e = OverflowError) /\
    draw_bboxes getTextSize res prefix = (ds, Ok tt) /\
    length ds = (2 * length prefix)%nat.
Proof.
  exact (draw_bboxes_stops prefix rest b
           (drawable_rows_are_finite prefix Hprefix) Hb).
Qed.

End DrawBboxes.

Lemma draw_bboxes_labels_every_box_witness :
  exists ds : list drawing,
    draw_bboxes Scenario.text_size (Sample.detections [])
                [Sample.box 1 20 2 30 9] = (ds, Ok tt) /\
    length ds = 2%nat /\
    drawn_labels ds = [("person"%string, f32 9 10)] /\
    In (Rectangle (1, -2) (41, 10)) ds.
Proof.
  destruct (draw_bboxes_labels_every_box Scenario.text_size
              (Sample.detections []) [Sample.box 1 20 2 30 9] eq_refl)
    as (ds & E & Hlen & Hlab & _).
  exists ds. split; [exact E |]. split; [exact Hlen |].
  split; [exact Hlab |].
  vm_compute in E. inversion E. cbn. auto.
Defined.

Lemma draw_bboxes_ignores_far_corner_witness :
  draw_bboxes Scenario.text_size (Sample.detections [])
              [Sample.box 1 20 7 9 9] =
  draw_bboxes Scenario.text_size (Sample.detections [])
              [Sample.box 1 20 2 30 9].
Proof.
  apply draw_bboxes_ignores_far_corner.
  repeat constructor.
Defined.

Lemma draw_bboxes_stops_at_nonfinite_corner_witness :
  exists (ds : list drawing) (e : exn),
    draw_bboxes Scenario.text_size (Sample.detections [])
                ([Sample.box 1 20 2 30 9] ++
                 Scenario.nan_box :: [Sample.box 0 0 1 1 9]) =
      (ds, Raise e) /\
    (e = ValueError \/ e = OverflowError) /\
    draw_bboxes Scenario.text_size (Sample.detections [])
                [Sample.box 1 20 2 30 9] = (ds, Ok tt) /\
    length ds = 2%nat.
Proof.
  exact (draw_bboxes_stops_at_nonfinite_corner Scenario.text_size
           (Sample.detections []) [Sample.box 1 20 2 30 9]
           [Sample.box 0 0 1 1 9] Scenario.nan_box eq_refl eq_refl).
Defined.

Lemma fusion_loop_ok_bounds
    {image : Type} (res : results) (bboxes : list bbox) :
  forall (st st' : node image) (bboxes_pcd : list point3) (t : list event),
    mapM (bbox_body res) bboxes st = (Ok bboxes_pcd, st', t) ->
    forallb finite_bounds bboxes = true.
Proof.
  induction bboxes as [|b bboxes IH]; intros st st' pcd' t H; [reflexivity |].
  cbn [forallb].
  destruct (bbox_body res b st) as [[[p | e] s1] t1] eqn:E.
  - rewrite (mapM_cons_ok (bbox_body res) _ _ _ _ _ _ E) in H.
    destruct (mapM (bbox_body res) bboxes s1) as [[[ps | e] s2] t2] eqn:El;
      [| discriminate].
    rewrite (IH _ _ _ _ El), andb_true_r.
    destruct (finite_bounds b) eqn:Hb; [reflexivity |].
    destruct (proj2 (pixel_bounds_finite b) Hb) as (e & Eb & _).
    rewrite bbox_body_eval, Eb in E. discriminate.
  - rewrite (mapM_cons_raise (bbox_body res) _ _ _ _ _ _ E) in H.
    discriminate.
Qed.

(** Within a tick [draw_bboxes] cannot fail: it is called only after the
    loop over the detections has completed, with the detector's rows, and
    every row that the loop has passed has finite coordinates. *)
Theorem drawing_step_of_a_tick_never_raises
    {image : Type} (getTextSize : string * float -> Z * Z)
    (model : image -> results) (st : node image) (img : image)
    (bboxes : list bbox)
    (Himg : raw_image st = Some img)
    (Hdraw : In (DrawBboxes bboxes) (snd (main_timer_callback model st))) :
  bboxes = boxes_data (model img) /\
  exists ds : list drawing,
    draw_bboxes getTextSize (model img) bboxes = (ds, Ok tt) /\
    length ds = (2 * length bboxes)%nat.
Proof.
  rewrite main_timer_callback_eval, Himg in Hdraw.
  destruct (depth_image st) as [a |];
    [| cbn in Hdraw; destruct Hdraw as [H | []]; discriminate H].
  pose proof (prints_only_mapM (bbox_body (model img)) (boxes_data (model img))
                (prints_only_bbox_body (model img)) st) as P.
  destruct (mapM (bbox_body (model img)) (boxes_data (model img)) st)
    as [[[pcd' | e] s1] t] eqn:E; cbn in Hdraw, P.
  - destruct Hdraw as [H | H]; [discriminate H |].
    apply in_app_or in H. destruct H as [H | H].
    + rewrite forallb_forall in P. specialize (P _ H). discriminate P.
    + destruct H as [H | [H | [H | []]]]; try discriminate H.
      inversion H; subst bboxes. split; [reflexivity |].
      pose proof (fusion_loop_ok_bounds _ _ _ _ _ _ E) as F.
      destruct (draw_bboxes_runs getTextSize (model img)
                  (boxes_data (model img))) as (ds & Ed & Hlen & _).
      * rewrite forallb_forall in F |- *. intros b Hb.
        specialize (F b Hb). unfold finite_bounds in F.
        apply andb_prop in F. destruct F as [F _].
        apply andb_prop in F. destruct F as [F Hy].
        apply andb_prop in F. destruct F as [Hx _].
        cbv beta. rewrite Hx, Hy. reflexivity.
      * eauto.
  - destruct Hdraw as [H | H]; [discriminate H |].
    rewrite forallb_forall in P. specialize (P _ H). discriminate P.
Qed.

Lemma drawing_step_of_a_tick_never_raises_witness :
  [Sample.box 0 0 2 2 9] =
    boxes_data (Scenario.detector [Sample.box 0 0 2 2 9] tt) /\
  exists ds : list drawing,
    draw_bboxes Scenario.text_size
                (Scenario.detector [Sample.box 0 0 2 2 9] tt)
                [Sample.box 0 0 2 2 9] = (ds, Ok tt) /\
    length ds = (2 * length [Sample.box 0 0 2 2 9])%nat.
Proof.
  apply (drawing_step_of_a_tick_never_raises Scenario.text_size
           (Scenario.detector [Sample.box 0 0 2 2 9])
           (Sample.node_with Sample.depth3) tt [Sample.box 0 0 2 2 9]
           eq_refl).
  vm_compute. auto 10.
Defined.

(** ** Pixel coordinates as floats *)

Lemma digits2_pos_iter_xO (p k : positive) :
  digits2_pos (Pos.iter xO p k) = (digits2_pos p + k)%positive.
Proof.
  induction k as [|k IH] using Pos.peano_ind.
  - cbn. rewrite Pos.add_1_r. reflexivity.
  - rewrite Pos.iter_succ. cbn. rewrite IH, Pos.add_succ_r. reflexivity.
Qed.

Lemma Zpos_iter_xO (p k : positive) :
  Zpos (Pos.iter xO p k) = Z.shiftl (Zpos p) (Zpos k).
Proof.
  cbn [Z.shiftl].
  apply (Pos.iter_swap_gen _ _ Zpos xO (Z.mul 2)). reflexivity.
Qed.

Lemma digits2_pos_lower (p : positive) :
  2 ^ (Zpos (digits2_pos p) - 1) <= Zpos p.
Proof.
  induction p as [p IH | p IH |]; cbn [digits2_pos].
  - rewrite Pos2Z.inj_succ.
    replace (Z.succ (Zpos (digits2_pos p)) - 1)
      with (Z.succ (Zpos (digits2_pos p) - 1)) by lia.
    rewrite Z.pow_succ_r by lia. lia.
  - rewrite Pos2Z.inj_succ.
    replace (Z.succ (Zpos (digits2_pos p)) - 1)
      with (Z.succ (Zpos (digits2_pos p) - 1)) by lia.
    rewrite Z.pow_succ_r by lia. lia.
  - cbn. lia.
Qed.

Lemma digits2_pos_le_53 (p : positive) :
  Zpos p < 2 ^ 53 -> Zpos (digits2_pos p) <= 53.
Proof.
  intros H. destruct (Z.le_gt_cases (Zpos (digits2_pos p)) 53) as [|G];
    [assumption |].
  pose proof (digits2_pos_lower p) as L.
  assert (2 ^ 53 <= 2 ^ (Zpos (digits2_pos p) - 1))
    by (apply Z.pow_le_mono_r; lia).
  lia.
Qed.

Lemma binary_round_small (s : bool) (p : positive) :
  Zpos p < 2 ^ 53 ->
  exists (m : positive) (e : Z),
    binary_round 53 1024 s p 0 = S754_finite s m e /\
    trunc s m e = cond_Zopp s (Zpos p).
Proof.
  intros Hp. pose proof (digits2_pos_le_53 p Hp) as Hd.
  unfold binary_round.
  assert (Ef : fexp 53 1024 (Zpos (digits2_pos p) + 0) =
               Zpos (digits2_pos p) - 53).
  { unfold fexp, emin. lia. }
  rewrite Ef. unfold shl_align.
  destruct (Zpos (digits2_pos p) - 53 - 0) as [| k | k] eqn:Ek; [| lia |].
  - (* the integer has 53 digits *)
    exists p, 0. unfold binary_round_aux, shr_fexp.
    cbn [Zdigits2].
    replace (fexp 53 1024 (Zpos (digits2_pos p) + 0) - 0) with 0
      by (rewrite Ef; lia).
    cbn [shr shr_record_of_loc shr_m loc_of_shr_record round_nearest_even].
    cbn [Zdigits2].
    replace (fexp 53 1024 (Zpos (digits2_pos p) + 0) - 0) with 0
      by (rewrite Ef; lia).
    cbn. split; [reflexivity |]. unfold trunc. cbn. reflexivity.
  - (* fewer digits: the mantissa is shifted left by k *)
    assert (Ee : Zpos (digits2_pos p) - 53 = Zneg k) by lia.
    rewrite Ee.
    exists (Pos.iter xO p k), (Zneg k).
    unfold binary_round_aux, shr_fexp. cbn [Zdigits2].
    rewrite digits2_pos_iter_xO.
    assert (E0 : fexp 53 1024 (Zpos (digits2_pos p + k) + Zneg k) - Zneg k = 0).
    { unfold fexp, emin. rewrite Pos2Z.inj_add. lia. }
    rewrite E0.
    cbn [shr shr_record_of_loc shr_m loc_of_shr_record round_nearest_even].
    cbn [Zdigits2]. rewrite digits2_pos_iter_xO, E0.
    cbn [shr shr_m].
    assert (El : (Zneg k <=? 1024 - 53) = true) by (apply Z.leb_le; lia).
    rewrite El. split; [reflexivity |].
    unfold trunc. rewrite Zpos_iter_xO.
    rewrite Z.shiftr_shiftl_l by lia.
    rewrite Z.sub_diag. reflexivity.
Qed.

(** Integers below 2^53 in magnitude - every pixel coordinate - are
    converted to a float exactly, in the sense that [int] gives the
    integer back: [int(float(n)) = n].  A box whose coordinates are whole
    pixels therefore gets exactly those pixel bounds. *)
Theorem int_of_float_of_int (n : Z) (Hn : Z.abs n < 2 ^ 53) :
  py_int (of_int n) = Ok n /\
  forall (b : bbox) (y0 x1 y1 : Z),
    x_min b = of_int n -> y_min b = of_int y0 ->
    x_max b = of_int x1 -> y_max b = of_int y1 ->
    Z.abs y0 < 2 ^ 53 -> Z.abs x1 < 2 ^ 53 -> Z.abs y1 < 2 ^ 53 ->
    pixel_bounds b = Ok (n, y0, x1, y1).
Proof.
  assert (R : forall z : Z, Z.abs z < 2 ^ 53 -> py_int (of_int z) = Ok z).
  { intros z Hz. unfold of_int, binary_normalize.
    destruct z as [| p | p].
    - reflexivity.
    - destruct (binary_round_small false p) as (m & e & -> & Ht); [lia |].
      cbn [py_int]. rewrite Ht. reflexivity.
    - destruct (binary_round_small true p) as (m & e & -> & Ht); [lia |].
      cbn [py_int]. rewrite Ht. reflexivity. }
  split; [exact (R n Hn) |].
  intros b y0 x1 y1 Ex0 Ey0 Ex1 Ey1 Hy0 Hx1 Hy1.
  unfold pixel_bounds.
  rewrite Ex0, Ex1, Ey0, Ey1, (R n Hn), (R x1 Hx1), (R y0 Hy0), (R y1 Hy1).
  reflexivity.
Qed.

Lemma int_of_float_of_int_witness :
  py_int (of_int 1279) = Ok 1279.
Proof.
  apply (int_of_float_of_int 1279). vm_compute. reflexivity.
Defined.

(** ** The optical axis *)

Lemma binary_round_aux_sign (prec emax : Z) (s : bool) (m e : Z)
    (l : location) :
  isfinite (binary_round_aux prec emax s m e l) = true ->
  binary_round_aux prec emax s m e l = S754_zero s \/
  exists (m' : positive) (e' : Z),
    binary_round_aux prec emax s m e l = S754_finite s m' e'.
Proof.
  unfold binary_round_aux.
  destruct (shr_fexp prec emax m e l) as [mrs' e'].
  destruct (shr_fexp prec emax _ e' loc_Exact) as [mrs'' e''].
  destruct (shr_m mrs'') as [| m' | m'].
  - auto.
  - destruct (e'' <=? emax - prec); [eauto | discriminate].
  - discriminate.
Qed.

Lemma to_float64_positive (d : float) :
  is_positive_finite d = true -> isfinite (to_float64 d) = true ->
  to_float64 d = S754_zero false \/
  exists (m : positive) (e : Z), to_float64 d = S754_finite false m e.
Proof.
  destruct d as [s | s | | [|] m e]; try discriminate. intros _.
  unfold to_float64, convert. cbn [cond_Zopp binary_normalize].
  unfold binary_round.
  destruct (shl_align m e _) as [mz ez].
  apply binary_round_aux_sign.
Qed.

(** A pixel in the column of the principal point ([cx = float(u)]) with a
    valid depth is back-projected to [X = 0], and a pixel in its row
    ([cy = float(v)]) to [Y = 0], at every depth and focal length: the
    principal point maps onto the optical axis [(0, 0, Z)]. *)
Theorem principal_point_maps_to_the_axis
    {image : Type} (st : node image) (a : ndarray) (u v : Z) (d : float)
    (Hdepth : depth_image st = Some a)
    (Hcell : getitem a v u = Ok d)
    (Hvalid : is_positive_finite d = true)
    (Hrange : isfinite (to_float64 d) = true) :
  exists p : point3,
    pixel_to_pcd (u, v) st = (Ok p, st, []) /\ pZ p = d /\
    (cx st = of_int u -> isfinite (cx st) = true ->
     is_positive_finite (fx st) = true -> pX p = zero) /\
    (cy st = of_int v -> isfinite (cy st) = true ->
     is_positive_finite (fy st) = true -> pY p = zero).
Proof.
  assert (E := pixel_to_pcd_eval st a Hdepth u v).
  rewrite Hcell, invalid_depth_spec, Hvalid in E. cbn [negb] in E.
  eexists. split; [exact E |]. split; [reflexivity |].
  assert (Z0 : forall f : float,
            is_positive_finite f = true ->
            div64 (mul64 (to_float64 d) zero) f = zero).
  { intros f Hf. destruct f as [?|?| |[|] mf ef]; try discriminate.
    destruct (to_float64_positive d Hvalid Hrange) as [-> | (m & e & ->)];
      reflexivity. }
  split.
  - intros Hcx Fcx Ffx. unfold pX. cbn [fst].
    rewrite <- Hcx, (sub64_diag _ Fcx). apply Z0. exact Ffx.
  - intros Hcy Fcy Ffy. unfold pY. cbn [fst snd].
    rewrite <- Hcy, (sub64_diag _ Fcy). apply Z0. exact Ffy.
Qed.

Lemma principal_point_maps_to_the_axis_witness :
  exists p : point3,
    pixel_to_pcd (1, 2) (Sample.node_with Sample.depth3) =
      (Ok p, Sample.node_with Sample.depth3, []) /\
    pZ p = f32 1 1 /\ pX p = zero.
Proof.
  destruct (principal_point_maps_to_the_axis
              (Sample.node_with Sample.depth3) Sample.depth3 1 2 (f32 1 1)
              eq_refl eq_refl eq_refl eq_refl) as (p & E & Hz & Hx & _).
  exists p. split; [exact E |]. split; [exact Hz |].
  apply Hx; reflexivity.
Defined.
